(** * Sidekick: the worker / tools / evaluator loop of [sidekick.py]

    A shallow embedding of the [Sidekick] class: the session [State], the
    three graph nodes ([worker], the tool node, [evaluator]), the two routing
    functions, the graph driver behind [graph.ainvoke] and [run_superstep].

    Python strings are sequences of Unicode code points, so that [str.strip]
    removes exactly the characters Python removes.  Everything outside the
    repository (the two model services, the tools, the wall clock) is a
    parameter of the development, indexed by the number of graph steps taken
    so far, so that two calls on equal arguments may answer differently. *)

From Stdlib Require Import String Ascii NArith Bool Arith Lia List.
Import ListNotations.

(** ** Python strings *)

Definition str : Type := list N.

(** A literal of the source, character by character. *)
Definition py (s : string) : str := map N_of_ascii (list_ascii_of_string s).

Definition nl : str := [10%N].

(** [str.isspace] on one code point (CPython's [_PyUnicode_IsWhitespace]). *)
Definition isspace (c : N) : bool :=
  ((9 <=? c) && (c <=? 13) || (28 <=? c) && (c <=? 32)
   || (c =? 133) || (c =? 160) || (c =? 5760)
   || (8192 <=? c) && (c <=? 8202)
   || (c =? 8232) || (c =? 8233) || (c =? 8239) || (c =? 8287)
   || (c =? 12288))%N.

Fixpoint lstrip (s : str) : str :=
  match s with
  | c :: r => if isspace c then lstrip r else s
  | [] => []
  end.

Definition rstrip (s : str) : str := rev (lstrip (rev s)).

(** [s.strip()] *)
Definition strip (s : str) : str := rstrip (lstrip s).

(** Truthiness of a string: [bool(s)]. *)
Definition truthy (s : str) : bool :=
  match s with [] => false | _ :: _ => true end.

(** The text of a triple-quoted literal, given line by line: every line is
    followed by a line feed. *)
Definition text (ls : list str) : str := concat (map (fun l => l ++ nl) ls).

(** ** Errors *)

Inductive Error : Type :=
| IndexError              (* [l[-1]] or [l[-2]] on a list that is too short *)
| ModelInvocationError    (* a completion call raised *)
| StructuredOutputError   (* the completion is not an [EvaluatorOutput] *)
| ToolNodeError           (* the tool node found no tool call to serve *)
| GraphRecursionError.    (* the graph ran out of steps *)

Inductive Result (A : Type) : Type :=
| Ok (a : A)
| Err (e : Error).

Arguments Ok {A} a.
Arguments Err {A} e.

Definition bind {A B} (r : Result A) (k : A -> Result B) : Result B :=
  match r with
  | Ok a => k a
  | Err e => Err e
  end.

Notation "x <- c ;; k" := (bind c (fun x => k))
  (at level 61, c at next level, right associativity).
Notation "' p <- c ;; k" := (bind c (fun x => let p := x in k))
  (at level 61, p pattern, c at next level, right associativity).

(** [l[-k]] for [k >= 1]. *)
Definition index_neg {A} (l : list A) (k : nat) : Result A :=
  match nth_error (rev l) (k - 1) with
  | Some a => Ok a
  | None => Err IndexError
  end.

(** ** Messages *)

Record ToolCall : Type := mkToolCall {
  tc_name : str;
  tc_args : str;
  tc_id : str
}.

(** The message classes of [langchain_core.messages] the program meets.
    Only an [AIMessage] has a [tool_calls] attribute. *)
Inductive Message : Type :=
| SystemMessage (content : str)
| HumanMessage (content : str)
| AIMessage (content : str) (tool_calls : list ToolCall)
| ToolMessage (content : str) (tool_call_id : str).

Definition content (m : Message) : str :=
  match m with
  | SystemMessage c | HumanMessage c | AIMessage c _ | ToolMessage c _ => c
  end.

(** [isinstance(msg, SystemMessage)] *)
Definition is_system (m : Message) : bool :=
  match m with SystemMessage _ => true | _ => false end.

(** [hasattr(m, "tool_calls") and m.tool_calls], as a truth value. *)
Definition has_tool_calls (m : Message) : bool :=
  match m with
  | AIMessage _ (_ :: _) => true
  | _ => false
  end.

Definition count_system (l : list Message) : nat :=
  length (filter is_system l).

(** ** State *)

Record State : Type := mkState {
  messages : list Message;
  success_criteria : str;
  feedback_on_work : option str;
  success_criteria_met : bool;
  user_input_needed : bool
}.

(** The reducer of the [messages] channel.  [add_messages] appends every
    message whose id is not yet in the list; the ids of model replies, of tool
    results and of the messages built here are fresh, so it concatenates. *)
Definition add_messages (left right : list Message) : list Message :=
  left ++ right.

(** The dictionary a node returns: a key that is absent is [None]. *)
Record Update : Type := mkUpdate {
  upd_messages : option (list Message);
  upd_success_criteria : option str;
  upd_feedback_on_work : option (option str);
  upd_success_criteria_met : option bool;
  upd_user_input_needed : option bool
}.

Definition set_messages (s : State) (l : list Message) : State :=
  mkState l (success_criteria s) (feedback_on_work s)
          (success_criteria_met s) (user_input_needed s).

Definition from_option {A} (o : option A) (d : A) : A :=
  match o with Some a => a | None => d end.

(** The graph writes a node's update into the channels: [messages] through
    its reducer, every other key by overwriting. *)
Definition apply_update (s : State) (u : Update) : State :=
  mkState
    (match upd_messages u with
     | Some l => add_messages (messages s) l
     | None => messages s
     end)
    (from_option (upd_success_criteria u) (success_criteria s))
    (from_option (upd_feedback_on_work u) (feedback_on_work s))
    (from_option (upd_success_criteria_met u) (success_criteria_met s))
    (from_option (upd_user_input_needed u) (user_input_needed s)).

(** ** EvaluatorOutput *)

Record EvaluatorOutput : Type := mkEvaluatorOutput {
  feedback : str;
  eo_success_criteria_met : bool;
  eo_user_input_needed : bool
}.

(** ** Graph nodes *)

Inductive Node : Type := N_worker | N_tools | N_evaluator | N_END.

Section Sidekick.

(** *** What the program is given from outside

    [t] counts the node executions since the [Sidekick] was set up. *)

(** [datetime.now().strftime("%Y-%m-%d %H:%M:%S")] *)
Variable now : nat -> str.

(** [self.worker_llm_with_tools.invoke]: the reply's text and tool calls. *)
Variable worker_llm_with_tools :
  nat -> list Message -> Result (str * list ToolCall).

(** The completion behind [self.evaluator_llm_with_output], and the parser
    [with_structured_output(EvaluatorOutput)] runs on it. *)
Variable evaluator_llm : nat -> list Message -> Result str.
Variable parse_EvaluatorOutput : str -> option EvaluatorOutput.

(** One tool of [self.tools] served by the tool node: the text it returns,
    or the text of the error it raised. *)
Variable invoke_tool : nat -> ToolCall -> str.

(** The step budget of [graph.ainvoke]. *)
Variable recursion_limit : nat.

(** *** Worker node *)

(** The instruction text before any feedback is added. *)
Definition worker_instructions (t : nat) (criteria : str) : str :=
  strip (text
    [ [];
      py "You are a helpful assistant that can use tools to complete tasks.";
      py "You should continue working until either:";
      py "- The success criteria is met, OR";
      py "- You need clarification from the user.";
      [];
      py "Rules:";
      py "- Use tools when needed.";
      py "- If using Python, include print() to return output.";
      py "- If finished, provide a final answer.";
      py "- If clarification is needed, clearly ask a question.";
      [];
      py "Current date and time: " ++ now t;
      [];
      py "Success criteria:";
      criteria ]).

(** The clause added when [state.get("feedback_on_work")] is truthy. *)
Definition rejection_clause (f : str) : str :=
  text
    [ [];
      [];
      py "Previous attempt was rejected for the following reason:";
      f;
      [];
      py "Please correct the issue and continue." ].

Definition worker_system_message (t : nat) (state : State) : str :=
  let system_message := worker_instructions t (success_criteria state) in
  match feedback_on_work state with
  | Some f =>
      if truthy f then system_message ++ rejection_clause f
      else system_message
  | None => system_message
  end.

(** The loop over [messages]: every [SystemMessage] gets the new content, in
    the message object itself, and [found_system] records that there was one. *)
Fixpoint ensure_system (system_message : str) (msgs : list Message)
    (found_system : bool) : list Message * bool :=
  match msgs with
  | [] => ([], found_system)
  | msg :: rest =>
      if is_system msg then
        let '(rest', found) := ensure_system system_message rest true in
        (SystemMessage system_message :: rest', found)
      else
        let '(rest', found) := ensure_system system_message rest found_system in
        (msg :: rest', found)
  end.

(** [state["messages"]] once the loop has run: the rewritten objects are the
    ones the state holds. *)
Definition worker_stored (t : nat) (state : State) : list Message :=
  fst (ensure_system (worker_system_message t state) (messages state) false).

(** The local [messages] handed to the model. *)
Definition worker_messages (t : nat) (state : State) : list Message :=
  let system_message := worker_system_message t state in
  let '(msgs, found_system) :=
    ensure_system system_message (messages state) false in
  if negb found_system then SystemMessage system_message :: msgs else msgs.

Definition messages_only (l : list Message) : Update :=
  mkUpdate (Some l) None None None None.

(** The node returns the update; the state it leaves behind is
    [worker_stored]. *)
Definition worker (t : nat) (state : State) : Result Update :=
  '(c, calls) <- worker_llm_with_tools t (worker_messages t state) ;;
  Ok (messages_only [AIMessage c calls]).

(** *** Worker router *)

Definition worker_router (state : State) : Result Node :=
  last_message <- index_neg (messages state) 1 ;;
  if has_tool_calls last_message then Ok N_tools else Ok N_evaluator.

(** *** Format conversation *)

Definition format_conversation (msgs : list Message) : str :=
  strip
    (fold_left
       (fun txt msg =>
          match msg with
          | HumanMessage c => txt ++ py "User: " ++ c ++ nl
          | AIMessage c _ =>
              txt ++ py "Assistant: "
                  ++ (if truthy c then c else py "[tool use]") ++ nl
          | _ => txt
          end)
       msgs []).

(** *** Evaluator node *)

Definition evaluator_system_message : str :=
  strip (text
    [ [];
      py "You are an evaluator.";
      [];
      py "CRITICAL OUTPUT RULES:";
      py "- Respond ONLY with valid JSON";
      py "- feedback MUST be a single-line string";
      py "- Do NOT use newlines";
      py "- Do NOT use bullet points";
      py "- Do NOT use markdown";
      py "- Do NOT start feedback with whitespace" ]).

Definition evaluator_user_message (state : State) (last_response : str) : str :=
  strip (text
    [ [];
      py "Conversation:";
      format_conversation (messages state);
      [];
      py "Success criteria:";
      success_criteria state;
      [];
      py "Assistant final response:";
      last_response;
      [];
      py "Evaluate if the success criteria is met.";
      py "Decide if user input is required.";
      [];
      py "If the assistant claims to have written files, assume it did so.";
      py "Give benefit of the doubt, but reject if more work is needed." ]).

(** [self.evaluator_llm_with_output.invoke]: the completion, then its
    parsing into an [EvaluatorOutput]. *)
Definition evaluator_llm_with_output (t : nat) (msgs : list Message)
    : Result EvaluatorOutput :=
  raw <- evaluator_llm t msgs ;;
  match parse_EvaluatorOutput raw with
  | Some eval_result => Ok eval_result
  | None => Err StructuredOutputError
  end.

Definition evaluator (t : nat) (state : State) : Result Update :=
  last <- index_neg (messages state) 1 ;;
  let last_response := content last in
  eval_result <-
    evaluator_llm_with_output t
      [ SystemMessage evaluator_system_message;
        HumanMessage (evaluator_user_message state last_response) ] ;;
  Ok (mkUpdate
        (Some [AIMessage (py "Evaluator feedback: " ++ feedback eval_result) []])
        None
        (Some (Some (feedback eval_result)))
        (Some (eo_success_criteria_met eval_result))
        (Some (eo_user_input_needed eval_result))).

(** *** Route based on evaluation *)

Definition route_based_on_evaluation (state : State) : Node :=
  if success_criteria_met state || user_input_needed state then N_END
  else N_worker.

(** *** Tool node ([ToolNode(tools=self.tools)])

    One [ToolMessage] per tool call of the last message. *)
Definition tools (t : nat) (state : State) : Result Update :=
  last <- index_neg (messages state) 1 ;;
  match last with
  | AIMessage _ calls =>
      Ok (messages_only
            (map (fun c => ToolMessage (invoke_tool t c) (tc_id c)) calls))
  | _ => Err ToolNodeError
  end.

(** *** The graph of [build_graph]

    One node execution: the node's update is written to the channels and
    the edge leaving the node picks the next one.  A node or router that
    raises leaves the channels as they were. *)
Definition step (n : Node) (t : nat) (state : State) : Result (Node * State) :=
  match n with
  | N_worker =>
      u <- worker t state ;;
      let state' := apply_update (set_messages state (worker_stored t state)) u in
      next <- worker_router state' ;;
      Ok (next, state')
  | N_tools =>
      u <- tools t state ;;
      Ok (N_worker, apply_update state u)
  | N_evaluator =>
      u <- evaluator t state ;;
      let state' := apply_update state u in
      Ok (route_based_on_evaluation state', state')
  | N_END => Ok (N_END, state)
  end.

(** What a call of the graph leaves: the last checkpoint of the thread, the
    clock, and the final state or the error that ended the call. *)
Record Run : Type := mkRun {
  checkpoint : State;
  clock : nat;
  outcome : Result State
}.

(** The loop of [graph.ainvoke], a checkpoint after every node execution. *)
Fixpoint drive (fuel : nat) (n : Node) (t : nat) (state : State) : Run :=
  match n with
  | N_END => mkRun state t (Ok state)
  | _ =>
      match fuel with
      | O => mkRun state t (Err GraphRecursionError)
      | S fuel' =>
          match step n t state with
          | Ok (n', state') => drive fuel' n' (S t) state'
          | Err e => mkRun state (S t) (Err e)
          end
      end
  end.

Definition empty_channels : State := mkState [] [] None false false.

(** The input dictionary of [run_superstep] holds every key of [State]. *)
Definition input_update (input : State) : Update :=
  mkUpdate (Some (messages input)) (Some (success_criteria input))
           (Some (feedback_on_work input))
           (Some (success_criteria_met input))
           (Some (user_input_needed input)).

(** The channels a call starts from: the thread's checkpoint, if
    [self.memory] holds one, with the input written over it. *)
Definition load (memory : option State) (input : State) : State :=
  apply_update (from_option memory empty_channels) (input_update input).

(** [self.graph.ainvoke(state, config)]: [START -> worker]. *)
Definition ainvoke (memory : option State) (t : nat) (input : State) : Run :=
  drive recursion_limit N_worker t (load memory input).

(** *** Run superstep *)

Record Turn : Type := mkTurn {
  role : str;
  turn_content : str
}.

Definition graph_input (message : str) (criteria : option str) : State :=
  mkState
    [HumanMessage message]
    (match criteria with
     | Some c => if truthy c then c
                 else py "The answer should be clear and accurate"
     | None => py "The answer should be clear and accurate"
     end)
    None false false.

(** Returns the new content of [self.memory], the clock, and the transcript
    or the error raised. *)
Definition run_superstep (memory : option State) (t : nat)
    (message : str) (criteria : option str) (history : list Turn)
    : option State * nat * Result (list Turn) :=
  let state := graph_input message criteria in
  let r := ainvoke memory t state in
  (Some (checkpoint r), clock r,
   result <- outcome r ;;
   let user := mkTurn (py "user") message in
   m2 <- index_neg (messages result) 2 ;;
   let reply := mkTurn (py "assistant") (content m2) in
   m1 <- index_neg (messages result) 1 ;;
   let feedback := mkTurn (py "assistant") (content m1) in
   Ok (history ++ [user; reply; feedback])).

(** *** Sessions

    The states one [Sidekick] goes through: node executions, and later
    calls of [run_superstep] on the same thread. *)
Inductive evolves (s : State) : State -> Prop :=
| ev_refl : evolves s s
| ev_step : forall n t s1 n' s',
    evolves s s1 -> step n t s1 = Ok (n', s') -> evolves s s'
| ev_superstep : forall s1 message criteria,
    evolves s s1 ->
    evolves s (load (Some s1) (graph_input message criteria)).

Definition in_session (s : State) : Prop :=
  exists message criteria,
    evolves (load None (graph_input message criteria)) s.

(** The configurations of one call of the graph, [k] node executions after
    it started in [(n0, t0, s0)]. *)
Inductive run_to (n0 : Node) (t0 : nat) (s0 : State)
    : nat -> Node -> nat -> State -> Prop :=
| rt_start : run_to n0 t0 s0 0 n0 t0 s0
| rt_step : forall k n t s n' s',
    run_to n0 t0 s0 k n t s -> n <> N_END -> step n t s = Ok (n', s') ->
    run_to n0 t0 s0 (S k) n' (S t) s'.

(** *** Notions the properties are stated with *)

(** What the loop of the worker does to one message. *)
Definition rewrite_system (system_message : str) (msg : Message) : Message :=
  if is_system msg then SystemMessage system_message else msg.

(** The turns the transcript keeps, and the line of each, in the words of
    the specification. *)
Definition is_turn (m : Message) : bool :=
  match m with
  | HumanMessage _ | AIMessage _ _ => true
  | _ => false
  end.

Definition transcript_line (m : Message) : str :=
  match m with
  | HumanMessage c => py "User: " ++ c ++ nl
  | AIMessage [] _ => py "Assistant: [tool use]" ++ nl
  | AIMessage c _ => py "Assistant: " ++ c ++ nl
  | _ => []
  end.

Definition transcript (msgs : list Message) : str :=
  strip (flat_map transcript_line (filter is_turn msgs)).

(** [new] has every message of [old] that is not a system entry, at its
    place. *)
Definition keeps_history (old new : list Message) : Prop :=
  length old <= length new /\
  forall i m,
    nth_error old i = Some m -> is_system m = false ->
    nth_error new i = Some m.

(** What the messages look like when the graph stands at a node: the
    evaluator is entered on a reply without tool calls, the exit is reached
    from the evaluator. *)
Definition shape (n : Node) (s : State) : Prop :=
  match n with
  | N_evaluator => exists pre c, messages s = pre ++ [AIMessage c []]
  | N_END =>
      exists pre c f,
        messages s =
          pre ++ [AIMessage c [];
                  AIMessage (py "Evaluator feedback: " ++ f) []] /\
        feedback_on_work s = Some f
  | _ => True
  end.

(** Inside a call both flags are false until the exit is reached. *)
Definition flags_down (n : Node) (s : State) : Prop :=
  n <> N_END -> success_criteria_met s = false /\ user_input_needed s = false.

(** ** Lists and negative indices *)

Lemma index_neg_last : forall (A : Type) (l : list A) (a : A),
  index_neg (l ++ [a]) 1 = Ok a.
Proof.
  intros A l a. unfold index_neg. rewrite rev_unit. reflexivity.
Qed.

Lemma index_neg_penultimate : forall (A : Type) (l : list A) (a b : A),
  index_neg (l ++ [a; b]) 2 = Ok a.
Proof.
  intros A l a b. unfold index_neg.
  rewrite rev_app_distr. reflexivity.
Qed.

Lemma index_neg_last_cons : forall (A : Type) (l : list A) (a b : A),
  index_neg (l ++ [a; b]) 1 = Ok b.
Proof.
  intros A l a b. unfold index_neg.
  rewrite rev_app_distr. reflexivity.
Qed.

(** ** The system entry of the worker *)

Lemma ensure_system_eq : forall sm msgs found,
  ensure_system sm msgs found =
  (map (rewrite_system sm) msgs, found || existsb is_system msgs).
Proof.
  intros sm msgs. induction msgs as [|m rest IH]; intros found; simpl.
  - now rewrite orb_false_r.
  - unfold rewrite_system at 1. destruct (is_system m); rewrite IH; simpl.
    + now rewrite orb_true_r.
    + reflexivity.
Qed.

Lemma count_system_app : forall l1 l2,
  count_system (l1 ++ l2) = count_system l1 + count_system l2.
Proof.
  intros. unfold count_system. now rewrite filter_app, length_app.
Qed.

Lemma count_system_rewrite : forall sm msgs,
  count_system (map (rewrite_system sm) msgs) = count_system msgs.
Proof.
  intros sm msgs. unfold count_system.
  induction msgs as [|m rest IH]; simpl; [reflexivity|].
  unfold rewrite_system at 1. destruct (is_system m) eqn:E; simpl.
  - now rewrite IH.
  - rewrite E. exact IH.
Qed.

Lemma count_system_zero : forall msgs,
  count_system msgs = 0 -> existsb is_system msgs = false.
Proof.
  unfold count_system. induction msgs as [|m rest IH]; simpl; intros H.
  - reflexivity.
  - destruct (is_system m); simpl in *; [discriminate | auto].
Qed.

Lemma rewrite_system_none : forall sm msgs,
  count_system msgs = 0 -> map (rewrite_system sm) msgs = msgs.
Proof.
  unfold count_system. induction msgs as [|m rest IH]; simpl; intros H.
  - reflexivity.
  - unfold rewrite_system at 1.
    destruct (is_system m); simpl in *; [discriminate | now rewrite IH].
Qed.

Lemma worker_stored_eq : forall t s,
  worker_stored t s =
  map (rewrite_system (worker_system_message t s)) (messages s).
Proof.
  intros. unfold worker_stored. now rewrite ensure_system_eq.
Qed.

Lemma worker_messages_eq : forall t s,
  worker_messages t s =
  if existsb is_system (messages s) then worker_stored t s
  else SystemMessage (worker_system_message t s) :: worker_stored t s.
Proof.
  intros. unfold worker_messages. rewrite worker_stored_eq, ensure_system_eq.
  simpl. now destruct (existsb is_system (messages s)).
Qed.

(** ** Routing *)

(** C2. The router after the evaluator leaves the graph exactly when
    [success_criteria_met] or [user_input_needed] holds in the state, and
    goes back to the worker exactly when both are false. *)
Theorem route_based_on_evaluation_spec : forall s : State,
  (route_based_on_evaluation s = N_END <->
     success_criteria_met s = true \/ user_input_needed s = true) /\
  (route_based_on_evaluation s = N_worker <->
     success_criteria_met s = false /\ user_input_needed s = false).
Proof.
  intros s. unfold route_based_on_evaluation.
  destruct (success_criteria_met s), (user_input_needed s); simpl;
    repeat split; intros; try discriminate; auto;
    match goal with
    | H : _ \/ _ |- _ => destruct H; discriminate
    | H : _ /\ _ |- _ => destruct H; discriminate
    end.
Qed.

Lemma worker_router_last : forall (s : State) pre m,
  messages s = pre ++ [m] ->
  worker_router s = Ok (if has_tool_calls m then N_tools else N_evaluator).
Proof.
  intros s pre m E. unfold worker_router. rewrite E, index_neg_last. simpl.
  now destruct (has_tool_calls m).
Qed.

(** C3. The router after the worker looks at the last message only: a last
    message with a non-empty [tool_calls] sends the graph to the tool node,
    a last message with an empty one, or of a class without [tool_calls],
    sends it to the evaluator, whatever precedes it. *)
Theorem worker_router_spec : forall (s : State) pre m,
  messages s = pre ++ [m] ->
  (forall c call calls,
      m = AIMessage c (call :: calls) -> worker_router s = Ok N_tools) /\
  (forall c, m = AIMessage c [] -> worker_router s = Ok N_evaluator) /\
  (forall c, m = HumanMessage c \/ m = SystemMessage c \/
             (exists i, m = ToolMessage c i) ->
             worker_router s = Ok N_evaluator) /\
  (forall (s2 : State) pre2,
      messages s2 = pre2 ++ [m] -> worker_router s2 = worker_router s).
Proof.
  intros s pre m E. rewrite (worker_router_last s pre m E).
  repeat split.
  - intros c call calls ->. reflexivity.
  - intros c ->. reflexivity.
  - intros c [-> | [-> | [i ->]]]; reflexivity.
  - intros s2 pre2 E2. now rewrite (worker_router_last s2 pre2 m E2).
Qed.

(** ** The transcript of the evaluator *)

Lemma format_conversation_fold : forall msgs acc,
  fold_left
    (fun txt msg =>
       match msg with
       | HumanMessage c => txt ++ py "User: " ++ c ++ nl
       | AIMessage c _ =>
           txt ++ py "Assistant: "
               ++ (if truthy c then c else py "[tool use]") ++ nl
       | _ => txt
       end) msgs acc
  = acc ++ flat_map transcript_line (filter is_turn msgs).
Proof.
  induction msgs as [|m rest IH]; intros acc.
  - simpl. now rewrite app_nil_r.
  - cbn [fold_left]. rewrite IH.
    destruct m as [c|c|c calls|c i];
      cbn [filter is_turn flat_map transcript_line]; try reflexivity.
    + now rewrite <- !app_assoc.
    + destruct c; cbn [truthy]; now rewrite <- !app_assoc.
Qed.

Lemma format_conversation_transcript : forall msgs,
  format_conversation msgs = transcript msgs.
Proof.
  intros. unfold format_conversation, transcript.
  now rewrite format_conversation_fold.
Qed.

(** C7. The transcript the evaluator formats is made of the lines of the
    user and assistant messages only: dropping a tool result (or a system
    entry) from the list does not change it, and an assistant message with
    empty content gives the line [Assistant: [tool use]]. *)
Theorem format_conversation_spec : forall msgs : list Message,
  format_conversation msgs =
    strip (flat_map transcript_line (filter is_turn msgs)) /\
  (forall pre c i post,
      format_conversation (pre ++ ToolMessage c i :: post) =
      format_conversation (pre ++ post)) /\
  (forall pre c post,
      format_conversation (pre ++ SystemMessage c :: post) =
      format_conversation (pre ++ post)) /\
  (forall pre calls post,
      format_conversation (pre ++ AIMessage [] calls :: post) =
      strip (flat_map transcript_line (filter is_turn pre)
             ++ py "Assistant: [tool use]" ++ nl
             ++ flat_map transcript_line (filter is_turn post))).
Proof.
  intros msgs. repeat split; intros;
    rewrite !format_conversation_transcript; unfold transcript;
    rewrite ?filter_app; cbn [filter is_turn]; try reflexivity.
  rewrite flat_map_app. cbn [flat_map transcript_line].
  now rewrite <- !app_assoc.
Qed.

(** ** The nodes, one execution at a time *)

Lemma worker_inv : forall t s u,
  worker t s = Ok u ->
  exists c calls,
    worker_llm_with_tools t (worker_messages t s) = Ok (c, calls) /\
    u = messages_only [AIMessage c calls].
Proof.
  intros t s u H. unfold worker in H.
  destruct (worker_llm_with_tools t (worker_messages t s)) as [[c calls]|e];
    simpl in H; [|discriminate].
  injection H as <-. eauto.
Qed.

(** C8. The update the worker returns has the single key [messages],
    holding the model's reply; once it is written, the reply is the new last
    message and [success_criteria], [feedback_on_work],
    [success_criteria_met] and [user_input_needed] are what they were. *)
Theorem worker_updates_messages_only : forall t s u,
  worker t s = Ok u ->
  let s' := apply_update (set_messages s (worker_stored t s)) u in
  (exists c calls,
      worker_llm_with_tools t (worker_messages t s) = Ok (c, calls) /\
      u = mkUpdate (Some [AIMessage c calls]) None None None None /\
      messages s' = worker_stored t s ++ [AIMessage c calls]) /\
  success_criteria s' = success_criteria s /\
  feedback_on_work s' = feedback_on_work s /\
  success_criteria_met s' = success_criteria_met s /\
  user_input_needed s' = user_input_needed s.
Proof.
  intros t s u H. destruct (worker_inv t s u H) as [c [calls [Hllm ->]]].
  simpl. split; [|auto]. exists c, calls. auto.
Qed.

Lemma step_worker_inv : forall t s n' s',
  step N_worker t s = Ok (n', s') ->
  exists c calls,
    worker_llm_with_tools t (worker_messages t s) = Ok (c, calls) /\
    s' = mkState (worker_stored t s ++ [AIMessage c calls])
                 (success_criteria s) (feedback_on_work s)
                 (success_criteria_met s) (user_input_needed s) /\
    n' = match calls with [] => N_evaluator | _ :: _ => N_tools end.
Proof.
  intros t s n' s' H. cbn [step] in H.
  destruct (worker t s) as [u|e] eqn:Hw; simpl in H; [|discriminate].
  destruct (worker_inv t s u Hw) as [c [calls [Hllm ->]]].
  exists c, calls. split; [exact Hllm|].
  unfold worker_router in H. cbn [apply_update messages_only upd_messages
    set_messages messages add_messages] in H.
  rewrite index_neg_last in H. simpl in H.
  destruct calls; simpl in H; injection H as <- <-; auto.
Qed.

Lemma step_tools_inv : forall t s n' s',
  step N_tools t s = Ok (n', s') ->
  exists c calls,
    index_neg (messages s) 1 = Ok (AIMessage c calls) /\
    s' = mkState
           (messages s ++
            map (fun call => ToolMessage (invoke_tool t call) (tc_id call)) calls)
           (success_criteria s) (feedback_on_work s)
           (success_criteria_met s) (user_input_needed s) /\
    n' = N_worker.
Proof.
  intros t s n' s' H. cbn [step] in H. unfold tools in H.
  destruct (index_neg (messages s) 1) as [last|e]; simpl in H; [|discriminate].
  destruct last as [c|c|c calls|c i]; simpl in H; try discriminate.
  injection H as <- <-. exists c, calls. auto.
Qed.

Lemma evaluator_inv : forall t s u,
  evaluator t s = Ok u ->
  exists last j,
    index_neg (messages s) 1 = Ok last /\
    evaluator_llm_with_output t
      [ SystemMessage evaluator_system_message;
        HumanMessage (evaluator_user_message s (content last)) ] = Ok j /\
    u = mkUpdate
          (Some [AIMessage (py "Evaluator feedback: " ++ feedback j) []])
          None (Some (Some (feedback j)))
          (Some (eo_success_criteria_met j))
          (Some (eo_user_input_needed j)).
Proof.
  intros t s u H. unfold evaluator in H.
  destruct (index_neg (messages s) 1) as [last|e]; simpl in H; [|discriminate].
  match type of H with
  | bind ?call _ = _ => destruct call as [j|e] eqn:Hj
  end; simpl in H; [|discriminate].
  injection H as <-. exists last, j. auto.
Qed.

Lemma step_evaluator_inv : forall t s n' s',
  step N_evaluator t s = Ok (n', s') ->
  exists last j,
    index_neg (messages s) 1 = Ok last /\
    evaluator_llm_with_output t
      [ SystemMessage evaluator_system_message;
        HumanMessage (evaluator_user_message s (content last)) ] = Ok j /\
    s' = mkState
           (messages s ++
            [AIMessage (py "Evaluator feedback: " ++ feedback j) []])
           (success_criteria s) (Some (feedback j))
           (eo_success_criteria_met j) (eo_user_input_needed j) /\
    n' = route_based_on_evaluation s'.
Proof.
  intros t s n' s' H. cbn [step] in H.
  destruct (evaluator t s) as [u|e] eqn:Hev; simpl in H; [|discriminate].
  destruct (evaluator_inv t s u Hev) as [last [j [Hl [Hj ->]]]].
  injection H as <- <-. exists last, j. auto.
Qed.

(** C6. When the structured model call of the evaluator returns a
    judgment, the evaluator appends one assistant message, whose content is
    [Evaluator feedback: ] followed by the judgment's feedback, and
    [feedback_on_work], [success_criteria_met] and [user_input_needed]
    become the three fields of the judgment. *)
Theorem evaluator_spec : forall t (s : State) pre last j,
  messages s = pre ++ [last] ->
  evaluator_llm_with_output t
    [ SystemMessage evaluator_system_message;
      HumanMessage (evaluator_user_message s (content last)) ] = Ok j ->
  exists u,
    evaluator t s = Ok u /\
    upd_messages u =
      Some [AIMessage (py "Evaluator feedback: " ++ feedback j) []] /\
    apply_update s u =
      mkState
        (messages s ++ [AIMessage (py "Evaluator feedback: " ++ feedback j) []])
        (success_criteria s)
        (Some (feedback j))
        (eo_success_criteria_met j)
        (eo_user_input_needed j).
Proof.
  intros t s pre last j E Hj. unfold evaluator.
  rewrite E, index_neg_last. cbn [bind]. rewrite <- E, Hj. cbn [bind].
  eexists. split; [reflexivity|]. split; reflexivity.
Qed.

(** ** What a call of [run_superstep] starts from *)

Lemma load_fields : forall memory input,
  success_criteria (load memory input) = success_criteria input /\
  feedback_on_work (load memory input) = feedback_on_work input /\
  success_criteria_met (load memory input) = success_criteria_met input /\
  user_input_needed (load memory input) = user_input_needed input /\
  messages (load memory input) =
    messages (from_option memory empty_channels) ++ messages input.
Proof. intros. unfold load. simpl. auto. Qed.

(** C10. Whatever the thread's checkpoint holds, the state a call of
    [run_superstep] starts its first worker from has
    [feedback_on_work = None] and both flags false, and the instruction
    that worker builds is the instruction text alone, with no rejection
    clause after it. *)
Theorem run_superstep_resets_feedback : forall memory t message criteria history,
  let s := load memory (graph_input message criteria) in
  run_superstep memory t message criteria history =
    (let r := drive recursion_limit N_worker t s in
     (Some (checkpoint r), clock r,
      result <- outcome r ;;
      m2 <- index_neg (messages result) 2 ;;
      m1 <- index_neg (messages result) 1 ;;
      Ok (history ++ [mkTurn (py "user") message;
                      mkTurn (py "assistant") (content m2);
                      mkTurn (py "assistant") (content m1)]))) /\
  feedback_on_work s = None /\
  success_criteria_met s = false /\
  user_input_needed s = false /\
  worker_system_message t s = worker_instructions t (success_criteria s) /\
  worker_system_message t s =
    worker_system_message t (load None (graph_input message criteria)).
Proof.
  intros memory t message criteria history s.
  repeat split; destruct memory; reflexivity.
Qed.

(** ** The history is only appended to *)

Lemma keeps_history_refl : forall l, keeps_history l l.
Proof. intros l. split; auto. Qed.

Lemma keeps_history_trans : forall l1 l2 l3,
  keeps_history l1 l2 -> keeps_history l2 l3 -> keeps_history l1 l3.
Proof.
  intros l1 l2 l3 [L12 K12] [L23 K23]. split; [lia|].
  intros i m Hi Hm. apply K23; auto.
Qed.

Lemma keeps_history_app : forall l new, keeps_history l (l ++ new).
Proof.
  intros l new. split.
  - rewrite length_app. lia.
  - intros i m Hi _. rewrite nth_error_app1; [exact Hi|].
    apply nth_error_Some. congruence.
Qed.

Lemma keeps_history_rewrite : forall sm l,
  keeps_history l (map (rewrite_system sm) l).
Proof.
  intros sm l. split.
  - now rewrite length_map.
  - intros i m Hi Hm. rewrite nth_error_map, Hi. simpl.
    unfold rewrite_system. now rewrite Hm.
Qed.

Lemma step_keeps_history : forall n t s n' s',
  step n t s = Ok (n', s') -> keeps_history (messages s) (messages s').
Proof.
  intros n t s n' s' H. destruct n.
  - destruct (step_worker_inv t s n' s' H) as [c [calls [_ [-> _]]]].
    cbn [messages]. rewrite worker_stored_eq.
    eapply keeps_history_trans;
      [apply keeps_history_rewrite | apply keeps_history_app].
  - destruct (step_tools_inv t s n' s' H) as [c [calls [_ [-> _]]]].
    apply keeps_history_app.
  - destruct (step_evaluator_inv t s n' s' H) as [l [j [_ [_ [-> _]]]]].
    apply keeps_history_app.
  - simpl in H. injection H as _ <-. apply keeps_history_refl.
Qed.

Lemma load_keeps_history : forall s input,
  keeps_history (messages s) (messages (load (Some s) input)).
Proof. intros. apply keeps_history_app. Qed.

(** C4. Along any sequence of worker, tool and evaluator executions of a
    session, later calls of [run_superstep] included, the list of messages
    never gets shorter and every message that is not a system entry stays
    what it was, at the place it was. *)
Theorem messages_append_only : forall s s',
  evolves s s' ->
  length (messages s) <= length (messages s') /\
  forall i m,
    nth_error (messages s) i = Some m -> is_system m = false ->
    nth_error (messages s') i = Some m.
Proof.
  intros s s' H. change (keeps_history (messages s) (messages s')).
  induction H as [|n t s1 n' s' _ IH Hstep|s1 message criteria _ IH].
  - apply keeps_history_refl.
  - eapply keeps_history_trans; [exact IH|].
    eapply step_keeps_history; eassumption.
  - eapply keeps_history_trans; [exact IH|]. apply load_keeps_history.
Qed.

(** ** System entries *)

Lemma step_no_system : forall n t s n' s',
  step n t s = Ok (n', s') ->
  count_system (messages s) = 0 -> count_system (messages s') = 0.
Proof.
  intros n t s n' s' H Hs. destruct n.
  - destruct (step_worker_inv t s n' s' H) as [c [calls [_ [-> _]]]].
    cbn [messages].
    rewrite count_system_app, worker_stored_eq, count_system_rewrite, Hs.
    reflexivity.
  - destruct (step_tools_inv t s n' s' H) as [c [calls [_ [-> _]]]].
    cbn [messages]. rewrite count_system_app, Hs. cbn [Nat.add].
    unfold count_system. clear. induction calls; simpl; auto.
  - destruct (step_evaluator_inv t s n' s' H) as [l [j [_ [_ [-> _]]]]].
    cbn [messages]. rewrite count_system_app, Hs. reflexivity.
  - simpl in H. injection H as _ <-. exact Hs.
Qed.

Lemma evolves_no_system : forall s s',
  evolves s s' ->
  count_system (messages s) = 0 -> count_system (messages s') = 0.
Proof.
  intros s s' H Hs.
  induction H as [|n t s1 n' s' _ IH Hstep|s1 message criteria _ IH].
  - exact Hs.
  - eapply step_no_system; eassumption.
  - destruct (load_fields (Some s1) (graph_input message criteria))
      as [_ [_ [_ [_ ->]]]].
    rewrite count_system_app. simpl. rewrite IH. reflexivity.
Qed.

Lemma in_session_no_system : forall s,
  in_session s -> count_system (messages s) = 0.
Proof.
  intros s [message [criteria H]].
  eapply evolves_no_system; [exact H | reflexivity].
Qed.

Lemma existsb_count_system : forall msgs,
  existsb is_system msgs = true -> 1 <= count_system msgs.
Proof.
  unfold count_system. induction msgs as [|m rest IH]; simpl; intros H.
  - discriminate.
  - destruct (is_system m); simpl in *; [lia | auto].
Qed.

Lemma existsb_count_system_none : forall msgs,
  existsb is_system msgs = false -> count_system msgs = 0.
Proof.
  unfold count_system. induction msgs as [|m rest IH]; simpl; intros H.
  - reflexivity.
  - destruct (is_system m); simpl in *; [discriminate | auto].
Qed.

Lemma rewrite_system_current : forall sm msgs m,
  In m (map (rewrite_system sm) msgs) -> is_system m = true ->
  m = SystemMessage sm.
Proof.
  intros sm msgs m Hin Hm. apply in_map_iff in Hin.
  destruct Hin as [x [<- _]]. unfold rewrite_system in *.
  destruct (is_system x) eqn:Ex; [reflexivity | congruence].
Qed.

(** C1, as the program has it.  From a state with at most one system entry,
    the list the worker hands to the model has exactly one, and it carries
    the current instruction: an entry that exists is rewritten in place,
    otherwise one is put in front of that list.  The entry put in front is
    not written back: a worker execution leaves the number of system entries
    of the stored messages as it was, and in a session driven by
    [run_superstep] that number is zero. *)
Theorem worker_one_system_entry : forall s t,
  count_system (messages s) <= 1 ->
  count_system (worker_messages t s) = 1 /\
  (forall m,
      In m (worker_messages t s) -> is_system m = true ->
      m = SystemMessage (worker_system_message t s)) /\
  (forall n' s',
      step N_worker t s = Ok (n', s') ->
      count_system (messages s') = count_system (messages s)) /\
  (in_session s ->
     count_system (messages s) = 0 /\
     worker_messages t s =
       SystemMessage (worker_system_message t s) :: messages s).
Proof.
  intros s t Hle. repeat split.
  - rewrite worker_messages_eq.
    destruct (existsb is_system (messages s)) eqn:E.
    + apply existsb_count_system in E.
      rewrite worker_stored_eq, count_system_rewrite.
      apply Nat.le_antisymm; assumption.
    + apply existsb_count_system_none in E.
      change (S (count_system (worker_stored t s)) = 1).
      now rewrite worker_stored_eq, count_system_rewrite, E.
  - intros m Hin Hm. rewrite worker_messages_eq in Hin.
    rewrite worker_stored_eq in Hin.
    destruct (existsb is_system (messages s)).
    + eapply rewrite_system_current; eassumption.
    + destruct Hin as [<- | Hin]; [reflexivity|].
      eapply rewrite_system_current; eassumption.
  - intros n' s' Hstep.
    destruct (step_worker_inv t s n' s' Hstep) as [c [calls [_ [-> _]]]].
    cbn [messages].
    rewrite count_system_app, worker_stored_eq, count_system_rewrite.
    apply Nat.add_0_r.
  - now apply in_session_no_system.
  - pose proof (in_session_no_system s H) as H0.
    rewrite worker_messages_eq, (count_system_zero _ H0), worker_stored_eq.
    now rewrite rewrite_system_none.
Qed.

(** ** One call of the graph *)

Lemma step_shape : forall n t s n' s',
  step n t s = Ok (n', s') -> shape n s -> shape n' s'.
Proof.
  intros n t s n' s' H Hn. destruct n.
  - destruct (step_worker_inv t s n' s' H) as [c [calls [_ [-> ->]]]].
    destruct calls; simpl; eauto.
  - destruct (step_tools_inv t s n' s' H) as [c [calls [_ [_ ->]]]].
    exact I.
  - destruct (step_evaluator_inv t s n' s' H) as [l [j [_ [_ [E ->]]]]].
    destruct Hn as [pre [c Hpre]].
    assert (Hend : shape N_END s').
    { exists pre, c, (feedback j). subst s'. cbn [messages feedback_on_work].
      rewrite Hpre, <- app_assoc. auto. }
    unfold route_based_on_evaluation.
    destruct (success_criteria_met s' || user_input_needed s');
      [exact Hend | exact I].
  - simpl in H. injection H as <- <-. exact Hn.
Qed.

Lemma step_flags_down : forall n t s n' s',
  step n t s = Ok (n', s') -> flags_down n s -> flags_down n' s'.
Proof.
  intros n t s n' s' H Hn. destruct n.
  - destruct (step_worker_inv t s n' s' H) as [c [calls [_ [-> _]]]].
    intros _. apply Hn. discriminate.
  - destruct (step_tools_inv t s n' s' H) as [c [calls [_ [-> _]]]].
    intros _. apply Hn. discriminate.
  - destruct (step_evaluator_inv t s n' s' H) as [l [j [_ [_ [_ ->]]]]].
    intros Hne. unfold route_based_on_evaluation in Hne.
    destruct (success_criteria_met s'), (user_input_needed s');
      simpl in Hne; try congruence. auto.
  - simpl in H. injection H as <- <-. exact Hn.
Qed.

Lemma drive_END : forall fuel t s,
  drive fuel N_END t s = mkRun s t (Ok s).
Proof. intros. destruct fuel; reflexivity. Qed.

Lemma drive_step : forall fuel n t s n' s',
  n <> N_END -> step n t s = Ok (n', s') ->
  drive (S fuel) n t s = drive fuel n' (S t) s'.
Proof.
  intros fuel n t s n' s' Hn H. destruct n; try congruence;
    cbn [drive]; now rewrite H.
Qed.

Lemma drive_raise : forall fuel n t s e,
  n <> N_END -> step n t s = Err e ->
  drive (S fuel) n t s = mkRun s (S t) (Err e).
Proof.
  intros fuel n t s e Hn H. destruct n; try congruence;
    cbn [drive]; now rewrite H.
Qed.

Lemma drive_final : forall fuel n t s final,
  outcome (drive fuel n t s) = Ok final ->
  shape n s ->
  shape N_END final /\ checkpoint (drive fuel n t s) = final.
Proof.
  induction fuel as [|fuel IH]; intros n t s final H Hn.
  - destruct n; simpl in H; try discriminate.
    injection H as <-. auto.
  - destruct n; try (rewrite drive_END in *; simpl in H;
                      injection H as <-; auto; fail);
      cbn [drive] in *;
      match type of H with
      | context [step ?n t s] =>
          destruct (step n t s) as [[n' s']|e] eqn:Hstep
      end; simpl in H; try discriminate;
      apply IH; auto; eapply step_shape; eauto.
Qed.

Lemma drive_run_to : forall n0 t0 s0 k n t s,
  run_to n0 t0 s0 k n t s ->
  forall fuel, drive (k + fuel) n0 t0 s0 = drive fuel n t s.
Proof.
  intros n0 t0 s0 k n t s H.
  induction H as [|k n t s n' s' _ IH Hn Hstep]; intros fuel.
  - reflexivity.
  - replace (S k + fuel) with (k + S fuel) by lia.
    rewrite IH. now apply drive_step.
Qed.

Lemma run_to_invariants : forall n0 t0 s0 k n t s,
  run_to n0 t0 s0 k n t s ->
  shape n0 s0 -> flags_down n0 s0 ->
  shape n s /\ flags_down n s /\ evolves s0 s.
Proof.
  intros n0 t0 s0 k n t s H Hsh Hfl.
  induction H as [|k n t s n' s' _ IH Hn Hstep].
  - split; [exact Hsh|]. split; [exact Hfl | apply ev_refl].
  - destruct IH as [IH1 [IH2 IH3]]. split; [|split].
    + eapply step_shape; eauto.
    + eapply step_flags_down; eauto.
    + eapply ev_step; eauto.
Qed.

(** The evaluator is only ever entered on the worker's reply: the state it
    reads [messages[-1]] from has a last message. *)
Lemma evaluator_entered_on_reply : forall memory t0 message criteria k t s,
  run_to N_worker t0 (load memory (graph_input message criteria))
         k N_evaluator t s ->
  exists pre c, messages s = pre ++ [AIMessage c []].
Proof.
  intros memory t0 message criteria k t s Hrun.
  destruct (run_to_invariants _ _ _ _ _ _ _ Hrun) as [Hsh _].
  - exact I.
  - intros _. destruct memory; auto.
  - exact Hsh.
Qed.

(** C5. When the graph reaches its exit, [run_superstep] returns the
    transcript it was given followed by three entries: the user's message,
    the content of the second-to-last message of the final state, which is
    the worker's last reply, and the content of its last message, which is
    the evaluator's feedback entry. *)
Theorem run_superstep_transcript :
  forall memory t message criteria history final,
    outcome (ainvoke memory t (graph_input message criteria)) = Ok final ->
    exists pre c f,
      messages final =
        pre ++ [AIMessage c [];
                AIMessage (py "Evaluator feedback: " ++ f) []] /\
      index_neg (messages final) 2 = Ok (AIMessage c []) /\
      index_neg (messages final) 1 =
        Ok (AIMessage (py "Evaluator feedback: " ++ f) []) /\
      feedback_on_work final = Some f /\
      fst (fst (run_superstep memory t message criteria history)) = Some final /\
      snd (run_superstep memory t message criteria history) =
        Ok (history ++
            [ mkTurn (py "user") message;
              mkTurn (py "assistant") c;
              mkTurn (py "assistant") (py "Evaluator feedback: " ++ f) ]).
Proof.
  intros memory t message criteria history final H.
  unfold ainvoke in H.
  destruct (drive_final _ _ _ _ _ H I) as [[pre [c [f [Hm Hf]]]] Hck].
  exists pre, c, f. split; [exact Hm|].
  split; [rewrite Hm; apply index_neg_penultimate|].
  split; [rewrite Hm; apply index_neg_last_cons|].
  split; [exact Hf|].
  unfold run_superstep, ainvoke. cbn [fst snd]. rewrite Hck. split; auto.
  rewrite H. cbn [bind].
  rewrite Hm, index_neg_penultimate. cbn [bind].
  rewrite index_neg_last_cons. reflexivity.
Qed.

(** C9. When the completion the evaluator receives does not parse into an
    [EvaluatorOutput], the call of [run_superstep] ends with that error and
    returns no transcript; the thread's checkpoint is the state the
    evaluator was entered with, in which no judgment is recorded and both
    flags are false. *)
Theorem unparsable_judgment_is_fatal :
  forall memory t0 message criteria history k t s last raw,
    run_to N_worker t0 (load memory (graph_input message criteria))
           k N_evaluator t s ->
    k < recursion_limit ->
    index_neg (messages s) 1 = Ok last ->
    evaluator_llm t
      [ SystemMessage evaluator_system_message;
        HumanMessage (evaluator_user_message s (content last)) ] = Ok raw ->
    parse_EvaluatorOutput raw = None ->
    evaluator t s = Err StructuredOutputError /\
    run_superstep memory t0 message criteria history =
      (Some s, S t, Err StructuredOutputError) /\
    success_criteria_met s = false /\
    user_input_needed s = false.
Proof.
  intros memory t0 message criteria history k t s last raw
         Hrun Hk Hlast Hraw Hparse.
  assert (Hev : evaluator t s = Err StructuredOutputError).
  { unfold evaluator, evaluator_llm_with_output.
    rewrite Hlast. cbn [bind]. rewrite Hraw. cbn [bind].
    now rewrite Hparse. }
  destruct (run_to_invariants _ _ _ _ _ _ _ Hrun) as [_ [Hfl _]].
  { exact I. }
  { intros _. destruct memory; auto. }
  split; [exact Hev|].
  split; [|apply Hfl; discriminate].
  unfold run_superstep, ainvoke.
  replace recursion_limit with (k + S (recursion_limit - S k)) by lia.
  rewrite (drive_run_to _ _ _ _ _ _ _ Hrun).
  rewrite (drive_raise _ N_evaluator t s StructuredOutputError).
  - reflexivity.
  - discriminate.
  - cbn [step]. now rewrite Hev.
Qed.

(** * Further properties of the program *)

(** ** [str.strip] *)

Lemma lstrip_split : forall s,
  exists w, s = w ++ lstrip s /\ forallb isspace w = true.
Proof.
  induction s as [|c r [w [E Hw]]]; simpl.
  - exists []. auto.
  - destruct (isspace c) eqn:Hc.
    + exists (c :: w). simpl. rewrite Hc, Hw. split; [now rewrite <- E | auto].
    + exists []. auto.
Qed.

Lemma lstrip_head : forall s c r, lstrip s = c :: r -> isspace c = false.
Proof.
  induction s as [|a s IH]; simpl; intros c r H; [discriminate|].
  destruct (isspace a) eqn:Ha; [eauto|]. injection H as <- _. exact Ha.
Qed.

Lemma lstrip_space_app : forall w s,
  forallb isspace w = true -> lstrip (w ++ s) = lstrip s.
Proof.
  induction w as [|c w IH]; simpl; intros s H; [reflexivity|].
  apply andb_true_iff in H. destruct H as [Hc Hw]. rewrite Hc. auto.
Qed.

Lemma lstrip_all_space : forall w, forallb isspace w = true -> lstrip w = [].
Proof.
  intros w H. rewrite <- (app_nil_r w). now rewrite lstrip_space_app.
Qed.

Lemma lstrip_app : forall s x, lstrip s <> [] -> lstrip (s ++ x) = lstrip s ++ x.
Proof.
  induction s as [|c s IH]; simpl; intros x H; [congruence|].
  destruct (isspace c); auto.
Qed.

Lemma lstrip_nil_space : forall s, lstrip s = [] -> forallb isspace s = true.
Proof.
  induction s as [|c s IH]; simpl; intros H; [reflexivity|].
  destruct (isspace c); [auto | discriminate].
Qed.

Lemma forallb_rev : forall (f : N -> bool) l,
  forallb f (rev l) = forallb f l.
Proof.
  intros f l. induction l as [|a l IH]; simpl; [reflexivity|].
  rewrite forallb_app, IH. simpl. rewrite andb_true_r. apply andb_comm.
Qed.

Lemma rstrip_space_app : forall s w,
  forallb isspace w = true -> rstrip (s ++ w) = rstrip s.
Proof.
  intros s w H. unfold rstrip. rewrite rev_app_distr, lstrip_space_app.
  - reflexivity.
  - now rewrite forallb_rev.
Qed.

Lemma rstrip_split : forall s,
  exists w, s = rstrip s ++ w /\ forallb isspace w = true.
Proof.
  intros s. destruct (lstrip_split (rev s)) as [w [E Hw]].
  exists (rev w). split.
  - unfold rstrip. rewrite <- rev_app_distr, <- E. now rewrite rev_involutive.
  - now rewrite forallb_rev.
Qed.

Lemma rstrip_last : forall s r c, rstrip s = r ++ [c] -> isspace c = false.
Proof.
  intros s r c H. unfold rstrip in H.
  apply (f_equal (@rev N)) in H. rewrite rev_involutive, rev_unit in H.
  eapply lstrip_head; eassumption.
Qed.

Lemma strip_space_app : forall x w,
  forallb isspace w = true -> strip (x ++ w) = strip x.
Proof.
  intros x w H. unfold strip. destruct (lstrip x) as [|c r] eqn:E.
  - rewrite lstrip_all_space; [reflexivity|].
    rewrite forallb_app, H, (lstrip_nil_space x E). reflexivity.
  - rewrite lstrip_app by congruence. rewrite E. now apply rstrip_space_app.
Qed.

Lemma strip_first : forall s c r, strip s = c :: r -> isspace c = false.
Proof.
  intros s c r H. unfold strip in H.
  destruct (rstrip_split (lstrip s)) as [w [E _]]. rewrite H in E.
  eapply lstrip_head. exact E.
Qed.

Lemma strip_last : forall s r c, strip s = r ++ [c] -> isspace c = false.
Proof. intros s r c H. eapply rstrip_last. exact H. Qed.

Lemma strip_nonspace_head : forall c r,
  isspace c = false -> exists r', strip (c :: r) = c :: r'.
Proof.
  intros c r Hc. unfold strip. simpl. rewrite Hc.
  destruct (rstrip_split (c :: r)) as [w [E Hw]].
  destruct (rstrip (c :: r)) as [|a r'] eqn:Er.
  - simpl in E. subst w. simpl in Hw. rewrite Hc in Hw. discriminate.
  - simpl in E. injection E as <- _. eauto.
Qed.

Lemma text_last : forall ls c, text (ls ++ [c]) = text ls ++ c ++ nl.
Proof.
  intros ls c. unfold text. rewrite map_app, concat_app. simpl.
  now rewrite app_nil_r.
Qed.

Lemma strip_text_last : forall ls c w,
  forallb isspace w = true ->
  strip (text (ls ++ [c ++ w])) = strip (text (ls ++ [c])).
Proof.
  intros ls c w H. rewrite !text_last.
  replace (text ls ++ (c ++ w) ++ nl) with ((text ls ++ c) ++ (w ++ nl))
    by (now rewrite <- !app_assoc).
  replace (text ls ++ c ++ nl) with ((text ls ++ c) ++ nl)
    by (now rewrite <- !app_assoc).
  rewrite (strip_space_app (text ls ++ c) (w ++ nl))
    by (rewrite forallb_app, H; reflexivity).
  rewrite (strip_space_app (text ls ++ c) nl) by reflexivity.
  reflexivity.
Qed.

(** ** The texts the program builds *)

(** X1. White space at the end of the success criteria never reaches the
    worker's instruction.  Criteria made of white space only are still
    criteria for [run_superstep], which does not fall back on the default
    text: the first worker is instructed as with empty criteria. *)
Theorem worker_instructions_trailing_space : forall t c w,
  forallb isspace w = true ->
  worker_instructions t (c ++ w) = worker_instructions t c /\
  (w <> [] ->
   forall memory message,
     let s := load memory (graph_input message (Some w)) in
     success_criteria s = w /\
     worker_system_message t s = worker_instructions t []).
Proof.
  intros t c w Hw.
  assert (Hgen : forall c', worker_instructions t (c' ++ w)
                            = worker_instructions t c').
  { intros c'. unfold worker_instructions.
    match goal with
    | |- strip (text ?l) = _ =>
        let ls := eval cbn [removelast] in (removelast l) in
        exact (strip_text_last ls c' w Hw)
    end. }
  split; [apply Hgen|].
  intros Hne memory message s.
  assert (Hs : success_criteria s = w).
  { subst s. destruct (load_fields memory (graph_input message (Some w)))
      as [-> _]. simpl. destruct w; [congruence | reflexivity]. }
  split; [exact Hs|].
  unfold worker_system_message. rewrite Hs.
  replace (feedback_on_work s) with (@None str)
    by (subst s; destruct memory; reflexivity).
  exact (Hgen []).
Qed.

Lemma transcript_line_head : forall m rest,
  is_turn m = true ->
  exists c r, transcript_line m ++ rest = c :: r /\ isspace c = false.
Proof.
  intros m rest H. destruct m as [c|c|c calls|c i]; try discriminate.
  - eexists _, _. split; reflexivity.
  - destruct c; eexists _, _; split; reflexivity.
Qed.

(** X2. The transcript handed to the evaluator neither starts nor ends with
    white space, so white space that ends the last message is lost; and it is
    the empty string exactly when the list holds no user and no assistant
    message. *)
Theorem format_conversation_trimmed : forall msgs : list Message,
  (forall c r, format_conversation msgs = c :: r -> isspace c = false) /\
  (forall r c, format_conversation msgs = r ++ [c] -> isspace c = false) /\
  (format_conversation msgs = [] <-> filter is_turn msgs = []).
Proof.
  intros msgs. split; [|split].
  - intros c r H. eapply strip_first. exact H.
  - intros r c H. eapply strip_last. exact H.
  - rewrite format_conversation_transcript. unfold transcript. split.
    + intros H. destruct (filter is_turn msgs) as [|m rest] eqn:E;
        [reflexivity|].
      assert (Hm : is_turn m = true).
      { assert (Hin : In m (filter is_turn msgs)) by (rewrite E; now left).
        apply filter_In in Hin. tauto. }
      cbn [flat_map] in H.
      destruct (transcript_line_head m (flat_map transcript_line rest) Hm)
        as [c [r [Hc Hs]]].
      rewrite Hc in H. destruct (strip_nonspace_head c r Hs) as [r' Hr].
      congruence.
    + intros ->. reflexivity.
Qed.

(** X3. The feedback entries the evaluator appends are assistant messages
    like any other: after an evaluator execution the transcript a later
    evaluation formats is the earlier one followed by the line
    [Assistant: Evaluator feedback: <feedback>]. *)
Theorem evaluator_feedback_in_transcript : forall t s n' s',
  step N_evaluator t s = Ok (n', s') ->
  exists f,
    feedback_on_work s' = Some f /\
    format_conversation (messages s') =
      strip (flat_map transcript_line (filter is_turn (messages s))
             ++ py "Assistant: Evaluator feedback: " ++ f ++ nl).
Proof.
  intros t s n' s' H.
  destruct (step_evaluator_inv t s n' s' H) as [l [j [_ [_ [-> _]]]]].
  exists (feedback j). split; [reflexivity|].
  rewrite format_conversation_transcript. unfold transcript.
  cbn [messages]. rewrite filter_app, flat_map_app.
  f_equal. f_equal. cbn [filter is_turn flat_map]. rewrite app_nil_r.
  reflexivity.
Qed.

(** ** The list the worker hands to the model, from any state *)

Definition not_system (m : Message) : bool := negb (is_system m).

Lemma filter_not_system_rewrite : forall sm msgs,
  filter not_system (map (rewrite_system sm) msgs) = filter not_system msgs.
Proof.
  intros sm msgs. induction msgs as [|m rest IH]; [reflexivity|].
  cbn [map filter]. rewrite IH. unfold rewrite_system, not_system.
  destruct (is_system m) eqn:E; simpl; rewrite ?E; reflexivity.
Qed.

Lemma worker_messages_current : forall s t,
  In (SystemMessage (worker_system_message t s)) (worker_messages t s).
Proof.
  intros s t. rewrite worker_messages_eq, worker_stored_eq.
  destruct (existsb is_system (messages s)) eqn:E; [|now left].
  apply existsb_exists in E. destruct E as [x [Hin Hx]].
  apply in_map_iff. exists x. split; [|exact Hin].
  unfold rewrite_system. now rewrite Hx.
Qed.

(** X4. Whatever the state holds, the worker hands the model every stored
    message that is not a system entry, in the stored order, and as many
    system entries as are stored, or one if none is: it never removes one.
    All of them carry the current instruction, and the current instruction is
    always there. *)
Theorem worker_messages_census : forall s t,
  filter not_system (worker_messages t s) = filter not_system (messages s) /\
  count_system (worker_messages t s) = Nat.max 1 (count_system (messages s)) /\
  (forall m,
      In m (worker_messages t s) -> is_system m = true ->
      m = SystemMessage (worker_system_message t s)) /\
  In (SystemMessage (worker_system_message t s)) (worker_messages t s).
Proof.
  intros s t. pose proof (worker_messages_current s t) as Hcur.
  rewrite worker_messages_eq, worker_stored_eq in *.
  destruct (existsb is_system (messages s)) eqn:E.
  - split; [apply filter_not_system_rewrite|]. split.
    + rewrite count_system_rewrite.
      apply existsb_count_system in E. now rewrite Nat.max_r.
    + split; [intros m; apply rewrite_system_current | exact Hcur].
  - split; [apply filter_not_system_rewrite|]. split.
    + change (S (count_system
                   (map (rewrite_system (worker_system_message t s))
                        (messages s))) = Nat.max 1 (count_system (messages s))).
      rewrite count_system_rewrite, (existsb_count_system_none _ E).
      reflexivity.
    + split; [|exact Hcur].
      intros m [<- | Hin] Hm; [reflexivity|].
      eapply rewrite_system_current; eassumption.
Qed.

(** X5. When the evaluator sends the graph back to the worker, the feedback
    it gave is in the state, both flags are false, and the instruction of the
    next worker is the instruction text followed by the rejection clause that
    quotes the feedback; an empty feedback adds no clause. *)
Theorem rejection_reaches_worker : forall t s s',
  step N_evaluator t s = Ok (N_worker, s') ->
  exists f,
    feedback_on_work s' = Some f /\
    index_neg (messages s') 1 =
      Ok (AIMessage (py "Evaluator feedback: " ++ f) []) /\
    success_criteria_met s' = false /\
    user_input_needed s' = false /\
    forall t',
      worker_system_message t' s' =
        worker_instructions t' (success_criteria s) ++
        (if truthy f then rejection_clause f else []) /\
      In (SystemMessage (worker_system_message t' s')) (worker_messages t' s').
Proof.
  intros t s s' H.
  destruct (step_evaluator_inv t s N_worker s' H) as [l [j [_ [_ [E Hr]]]]].
  exists (feedback j).
  assert (Hf : feedback_on_work s' = Some (feedback j)) by (now subst s').
  assert (Hc : success_criteria s' = success_criteria s) by (now subst s').
  split; [exact Hf|]. split; [subst s'; apply index_neg_last|].
  assert (Hflags : success_criteria_met s' = false /\
                   user_input_needed s' = false).
  { unfold route_based_on_evaluation in Hr.
    destruct (success_criteria_met s'), (user_input_needed s');
      simpl in Hr; try discriminate. auto. }
  destruct Hflags as [Hm Hu].
  split; [exact Hm|]. split; [exact Hu|].
  intros t'. split; [|apply worker_messages_current].
  unfold worker_system_message. rewrite Hf, Hc.
  destruct (truthy (feedback j)); [reflexivity | now rewrite app_nil_r].
Qed.

(** ** What holds all along a call of the graph *)

Lemma evolves_trans : forall a b c,
  evolves a b -> evolves b c -> evolves a c.
Proof.
  intros a b c Hab Hbc.
  induction Hbc as [|n t s1 n' s' _ IH Hstep|s1 message criteria _ IH].
  - exact Hab.
  - eapply ev_step; eassumption.
  - apply ev_superstep. exact IH.
Qed.

(** The flags at a node: raised at the exit, down everywhere else. *)
Definition flags_at (n : Node) (s : State) : Prop :=
  match n with
  | N_END => success_criteria_met s = true \/ user_input_needed s = true
  | _ => success_criteria_met s = false /\ user_input_needed s = false
  end.

(** The tool node is entered on a reply that asks for a tool. *)
Definition tools_shape (n : Node) (s : State) : Prop :=
  n = N_tools ->
  exists pre c call calls, messages s = pre ++ [AIMessage c (call :: calls)].

(** What a call started in [s0] keeps, at node [n] in state [s]. *)
Definition call_inv (s0 : State) (n : Node) (s : State) : Prop :=
  shape n s /\
  tools_shape n s /\
  flags_at n s /\
  success_criteria s = success_criteria s0 /\
  evolves s0 s /\
  (count_system (messages s0) = 0 ->
   exists more, messages s = messages s0 ++ more).

Lemma call_inv_start : forall s0,
  success_criteria_met s0 = false -> user_input_needed s0 = false ->
  call_inv s0 N_worker s0.
Proof.
  intros s0 Hm Hu. unfold call_inv, tools_shape. simpl.
  repeat split; auto; try discriminate.
  - apply ev_refl.
  - intros _. exists []. now rewrite app_nil_r.
Qed.

Lemma call_inv_step : forall s0 n t s n' s',
  call_inv s0 n s -> step n t s = Ok (n', s') -> call_inv s0 n' s'.
Proof.
  intros s0 n t s n' s' [Hsh [Hts [Hfl [Hc [Hev Hpre]]]]] Hstep.
  assert (Hsh' : shape n' s') by (eapply step_shape; eassumption).
  assert (Hev' : evolves s0 s') by (eapply ev_step; eassumption).
  assert (Hpre' : count_system (messages s0) = 0 ->
                  exists more, messages s' = messages s0 ++ more).
  { intros H0. destruct (Hpre H0) as [more Hmore].
    pose proof (evolves_no_system s0 s Hev H0) as Hs0.
    destruct n.
    - destruct (step_worker_inv t s n' s' Hstep) as [c [calls [_ [-> _]]]].
      cbn [messages]. rewrite worker_stored_eq, rewrite_system_none by exact Hs0.
      rewrite Hmore, <- app_assoc. eauto.
    - destruct (step_tools_inv t s n' s' Hstep) as [c [calls [_ [-> _]]]].
      cbn [messages]. rewrite Hmore, <- app_assoc. eauto.
    - destruct (step_evaluator_inv t s n' s' Hstep) as [l [j [_ [_ [-> _]]]]].
      cbn [messages]. rewrite Hmore, <- app_assoc. eauto.
    - simpl in Hstep. injection Hstep as _ <-. eauto. }
  unfold call_inv. split; [exact Hsh'|].
  destruct n.
  - destruct (step_worker_inv t s n' s' Hstep) as [c [calls [_ [-> ->]]]].
    split; [|split; [|split; [|split]]]; auto.
    + intros Ht. destruct calls as [|call calls]; [discriminate|].
      exists (worker_stored t s), c, call, calls. reflexivity.
    + destruct calls; exact Hfl.
  - destruct (step_tools_inv t s n' s' Hstep) as [c [calls [_ [-> ->]]]].
    split; [|split; [|split; [|split]]]; auto. discriminate.
  - destruct (step_evaluator_inv t s n' s' Hstep) as [l [j [_ [_ [E ->]]]]].
    split; [|split; [|split; [|split]]]; auto.
    + unfold tools_shape, route_based_on_evaluation.
      destruct (success_criteria_met s' || user_input_needed s'); discriminate.
    + unfold route_based_on_evaluation.
      destruct (success_criteria_met s') eqn:Hm',
               (user_input_needed s') eqn:Hu'; simpl; auto.
    + rewrite E. exact Hc.
  - simpl in Hstep. injection Hstep as <- <-.
    split; [|split; [|split; [|split]]]; auto.
Qed.

(** A node of the graph raises only what a service raised, or
    [StructuredOutputError] on a completion that does not parse. *)
Definition raised_by_service (e : Error) : Prop :=
  (exists t msgs, worker_llm_with_tools t msgs = Err e) \/
  (exists t msgs, evaluator_llm t msgs = Err e) \/
  (e = StructuredOutputError /\
   exists t msgs raw,
     evaluator_llm t msgs = Ok raw /\ parse_EvaluatorOutput raw = None).

Lemma step_raises : forall s0 n t s e,
  call_inv s0 n s -> step n t s = Err e -> raised_by_service e.
Proof.
  intros s0 n t s e [Hsh [Hts _]] Hstep. destruct n.
  - left. exists t, (worker_messages t s).
    cbn [step] in Hstep. unfold worker in *.
    destruct (worker_llm_with_tools t (worker_messages t s))
      as [[c calls]|e']; simpl in Hstep.
    + unfold worker_router in Hstep.
      cbn [apply_update messages_only upd_messages set_messages messages
           add_messages] in Hstep.
      rewrite index_neg_last in Hstep. simpl in Hstep.
      destruct calls; discriminate.
    + congruence.
  - destruct (Hts eq_refl) as [pre [c [call [calls E]]]].
    cbn [step] in Hstep. unfold tools in Hstep.
    rewrite E, index_neg_last in Hstep. discriminate.
  - destruct Hsh as [pre [c E]].
    cbn [step] in Hstep. unfold evaluator, evaluator_llm_with_output in Hstep.
    rewrite E, index_neg_last in Hstep. cbn [bind] in Hstep.
    match type of Hstep with
    | context [evaluator_llm t ?msgs] =>
        destruct (evaluator_llm t msgs) as [raw|e'] eqn:Hraw
    end; cbn [bind] in Hstep.
    + destruct (parse_EvaluatorOutput raw) eqn:Hp; cbn [bind] in Hstep;
        [discriminate|].
      right. right. split; [congruence|]. eauto.
    + right. left. eexists _, _.
      replace e with e' by congruence. exact Hraw.
  - discriminate.
Qed.

(** How a call ends: at the exit, with the final state as checkpoint; or on
    an error, with the state the failing node was entered with. *)
Lemma drive_ends : forall s0 fuel n t s,
  call_inv s0 n s ->
  match outcome (drive fuel n t s) with
  | Ok final =>
      final = checkpoint (drive fuel n t s) /\ call_inv s0 N_END final
  | Err e =>
      (exists n', n' <> N_END /\
                  call_inv s0 n' (checkpoint (drive fuel n t s))) /\
      (e = GraphRecursionError \/ raised_by_service e)
  end.
Proof.
  intros s0. induction fuel as [|fuel IH]; intros n t s Hinv.
  - destruct n; simpl; auto;
      (split; [eexists; split; [|exact Hinv]; discriminate | now left]).
  - destruct n; try (rewrite drive_END; simpl; auto; fail);
      cbn [drive];
      match goal with
      | |- context [step ?n t s] =>
          destruct (step n t s) as [[n' s']|e] eqn:Hstep
      end;
      try (apply IH; eapply call_inv_step; eassumption);
      simpl; (split;
              [eexists; split; [|exact Hinv]; discriminate
              | right; eapply step_raises; eassumption]).
Qed.

Lemma load_flags : forall memory message criteria,
  success_criteria_met (load memory (graph_input message criteria)) = false /\
  user_input_needed (load memory (graph_input message criteria)) = false.
Proof. intros. destruct memory; auto. Qed.

Lemma ainvoke_ends : forall memory t message criteria,
  let s0 := load memory (graph_input message criteria) in
  let r := ainvoke memory t (graph_input message criteria) in
  match outcome r with
  | Ok final => final = checkpoint r /\ call_inv s0 N_END final
  | Err e =>
      (exists n', n' <> N_END /\ call_inv s0 n' (checkpoint r)) /\
      (e = GraphRecursionError \/ raised_by_service e)
  end.
Proof.
  intros memory t message criteria s0 r. subst r. unfold ainvoke.
  apply drive_ends. apply call_inv_start; apply load_flags.
Qed.

(** What [run_superstep] returns, read off the end of the call. *)
Lemma run_superstep_result : forall memory t message criteria history,
  let r := ainvoke memory t (graph_input message criteria) in
  fst (fst (run_superstep memory t message criteria history))
    = Some (checkpoint r) /\
  match outcome r with
  | Ok final =>
      exists pre c f,
        messages final =
          pre ++ [AIMessage c [];
                  AIMessage (py "Evaluator feedback: " ++ f) []] /\
        snd (run_superstep memory t message criteria history) =
          Ok (history ++
              [ mkTurn (py "user") message;
                mkTurn (py "assistant") c;
                mkTurn (py "assistant") (py "Evaluator feedback: " ++ f) ])
  | Err e => snd (run_superstep memory t message criteria history) = Err e
  end.
Proof.
  intros memory t message criteria history r. split; [reflexivity|].
  pose proof (ainvoke_ends memory t message criteria) as H. cbv zeta in H.
  fold r in H. unfold run_superstep. fold r. cbn [snd].
  destruct (outcome r) as [final|e]; [|reflexivity].
  destruct H as [_ [[pre [c [f [Hm _]]]] _]].
  exists pre, c, f. split; [exact Hm|]. cbn [bind].
  rewrite Hm, index_neg_penultimate. cbn [bind].
  rewrite index_neg_last_cons. reflexivity.
Qed.

(** ** What a caller of [run_superstep] can rely on *)



(** X8. The success criteria of a call are the ones it was given, or the
    default text when it was given none or the empty string; no node changes
    them, and the criteria of an earlier call are gone. *)
Theorem criteria_per_call : forall memory t message criteria history,
  exists ck,
    fst (fst (run_superstep memory t message criteria history)) = Some ck /\
    success_criteria ck =
      match criteria with
      | Some (c :: r) => c :: r
      | _ => py "The answer should be clear and accurate"
      end.
Proof.
  intros memory t message criteria history.
  destruct (run_superstep_result memory t message criteria history)
    as [Hck _].
  pose proof (ainvoke_ends memory t message criteria) as Hend.
  cbv zeta in Hend.
  eexists. split; [exact Hck|].
  assert (Hc : success_criteria
                 (checkpoint (ainvoke memory t (graph_input message criteria)))
               = success_criteria (load memory (graph_input message criteria))).
  { destruct (outcome (ainvoke memory t (graph_input message criteria))).
    - destruct Hend as [<- [_ [_ [_ [Hc _]]]]]. exact Hc.
    - destruct Hend as [[n' [_ [_ [_ [_ [Hc _]]]]]] _]. exact Hc. }
  rewrite Hc.
  destruct (load_fields memory (graph_input message criteria)) as [-> _].
  destruct criteria as [[|c r]|]; reflexivity.
Qed.

(** X9. The transcript passed to [run_superstep] is only copied: the
    checkpoint, the clock, the error and the three entries appended do not
    depend on it.  What the models see of earlier calls comes from the
    thread's checkpoint alone. *)
Theorem history_is_not_consulted :
  forall memory t message criteria h1 h2,
    fst (run_superstep memory t message criteria h1) =
    fst (run_superstep memory t message criteria h2) /\
    (forall e,
        snd (run_superstep memory t message criteria h1) = Err e ->
        snd (run_superstep memory t message criteria h2) = Err e) /\
    (forall transcript,
        snd (run_superstep memory t message criteria h1) = Ok transcript ->
        exists three,
          length three = 3 /\
          transcript = h1 ++ three /\
          snd (run_superstep memory t message criteria h2) = Ok (h2 ++ three)).
Proof.
  intros memory t message criteria h1 h2. split; [reflexivity|].
  destruct (run_superstep_result memory t message criteria h1) as [_ H1].
  destruct (run_superstep_result memory t message criteria h2) as [_ H2].
  destruct (outcome (ainvoke memory t (graph_input message criteria)))
    as [final|e'].
  - destruct H1 as [pre1 [c1 [f1 [Hm1 Hr1]]]].
    destruct H2 as [pre2 [c2 [f2 [Hm2 Hr2]]]].
    assert (Hsame : c1 = c2 /\ f1 = f2).
    { rewrite Hm1 in Hm2.
      change [AIMessage c1 []; AIMessage (py "Evaluator feedback: " ++ f1) []]
        with ([AIMessage c1 []]
              ++ [AIMessage (py "Evaluator feedback: " ++ f1) []]) in Hm2.
      change [AIMessage c2 []; AIMessage (py "Evaluator feedback: " ++ f2) []]
        with ([AIMessage c2 []]
              ++ [AIMessage (py "Evaluator feedback: " ++ f2) []]) in Hm2.
      rewrite !app_assoc in Hm2.
      apply app_inj_tail in Hm2. destruct Hm2 as [Hm2 Hf].
      apply app_inj_tail in Hm2. destruct Hm2 as [_ Hc].
      injection Hc as Hc. injection Hf as Hf. auto. }
    destruct Hsame as [<- <-].
    split; [intros e He; congruence|].
    intros tr Htr. eexists. split; [|split; [|exact Hr2]].
    + reflexivity.
    + congruence.
  - split; [intros e He; congruence|].
    intros tr Htr. congruence.
Qed.

(** The content of [self.memory] after any number of calls of
    [run_superstep] on a new [Sidekick], whether they returned or raised. *)
Inductive session_memory : option State -> Prop :=
| sm_new : session_memory None
| sm_call : forall memory t message criteria history,
    session_memory memory ->
    session_memory
      (fst (fst (run_superstep memory t message criteria history))).

Lemma session_memory_in_session : forall memory,
  session_memory memory ->
  forall s, memory = Some s -> in_session s.
Proof.
  intros memory H.
  induction H as [|memory t message criteria history Hm IH];
    intros s Hs; [discriminate|].
  destruct (run_superstep_result memory t message criteria history)
    as [Hck _].
  pose proof (ainvoke_ends memory t message criteria) as Hend.
  cbv zeta in Hend. rewrite Hck in Hs. injection Hs as <-.
  assert (Hev : evolves (load memory (graph_input message criteria))
                  (checkpoint (ainvoke memory t (graph_input message criteria)))).
  { destruct (outcome (ainvoke memory t (graph_input message criteria))).
    - destruct Hend as [<- [_ [_ [_ [_ [Hev _]]]]]]. exact Hev.
    - destruct Hend as [[n' [_ [_ [_ [_ [_ [Hev _]]]]]]] _]. exact Hev. }
  destruct memory as [s1|].
  - destruct (IH s1 eq_refl) as [m0 [c0 H0]]. exists m0, c0.
    eapply evolves_trans; [|exact Hev].
    apply ev_superstep. exact H0.
  - exists message, criteria. exact Hev.
Qed.

(** X10. No checkpoint left by calls of [run_superstep] stores a system
    entry: in every later call the worker builds the instruction anew and
    puts it in front of the stored messages. *)
Theorem session_memory_no_system : forall memory s,
  session_memory memory -> memory = Some s ->
  count_system (messages s) = 0 /\
  forall t,
    worker_messages t s =
      SystemMessage (worker_system_message t s) :: messages s.
Proof.
  intros memory s Hm Hs.
  pose proof (session_memory_in_session memory Hm s Hs) as Hin.
  pose proof (in_session_no_system s Hin) as H0.
  split; [exact H0|]. intros t.
  rewrite worker_messages_eq, (count_system_zero _ H0), worker_stored_eq.
  now rewrite rewrite_system_none.
Qed.

Lemma checkpoint_extends_thread : forall memory t message criteria,
  session_memory memory ->
  exists more,
    messages (checkpoint (ainvoke memory t (graph_input message criteria))) =
      messages (from_option memory empty_channels)
      ++ HumanMessage message :: more.
Proof.
  intros memory t message criteria Hm.
  pose proof (ainvoke_ends memory t message criteria) as Hend.
  cbv zeta in Hend.
  assert (H0 : count_system
                 (messages (load memory (graph_input message criteria))) = 0).
  { destruct (load_fields memory (graph_input message criteria))
      as [_ [_ [_ [_ ->]]]].
    rewrite count_system_app. destruct memory as [s1|]; [|reflexivity].
    cbn [from_option].
    rewrite (in_session_no_system s1
               (session_memory_in_session _ Hm s1 eq_refl)).
    reflexivity. }
  assert (Hpre : exists more,
             messages (checkpoint
                         (ainvoke memory t (graph_input message criteria)))
             = messages (load memory (graph_input message criteria)) ++ more).
  { destruct (outcome (ainvoke memory t (graph_input message criteria))).
    - destruct Hend as [<- [_ [_ [_ [_ [_ Hp]]]]]]. auto.
    - destruct Hend as [[n' [_ [_ [_ [_ [_ [_ Hp]]]]]]] _]. auto. }
  destruct Hpre as [more Hmore].
  exists more. rewrite Hmore.
  destruct (load_fields memory (graph_input message criteria))
    as [_ [_ [_ [_ ->]]]].
  now rewrite <- app_assoc.
Qed.

(** X11. A call adds to the thread and never rewrites it: the checkpoint it
    leaves holds the messages of the checkpoint it found, then the user's
    message, then what the nodes appended; this also when the call raised, so
    that the message of a failed call stays in the thread. *)
Theorem thread_accumulates : forall memory t message criteria history,
  session_memory memory ->
  exists ck more,
    fst (fst (run_superstep memory t message criteria history)) = Some ck /\
    messages ck =
      messages (from_option memory empty_channels)
      ++ HumanMessage message :: more.
Proof.
  intros memory t message criteria history Hm.
  destruct (checkpoint_extends_thread memory t message criteria Hm)
    as [more Hmore].
  eexists _, more. split; [reflexivity | exact Hmore].
Qed.

(** The transcript a caller holds after [n] calls that returned, when it
    gives each call the transcript the call before returned. *)
Inductive transcript_after : nat -> option State -> list Turn -> Prop :=
| ta_new : transcript_after 0 None []
| ta_call : forall n memory history t message criteria memory' t' history',
    transcript_after n memory history ->
    run_superstep memory t message criteria history
      = (memory', t', Ok history') ->
    transcript_after (S n) memory' history'.

Lemma transcript_after_session : forall n memory history,
  transcript_after n memory history -> session_memory memory.
Proof.
  intros n memory history H.
  induction H as [|n memory history t message criteria memory' t' history'
                    _ IH Hrun].
  - apply sm_new.
  - replace memory'
      with (fst (fst (run_superstep memory t message criteria history)))
      by (now rewrite Hrun).
    now apply sm_call.
Qed.

Lemma transcript_after_new : forall n history,
  transcript_after n None history -> n = 0.
Proof.
  intros n history H. inversion H as [|n0 memory h0 t message criteria
                                        memory' t' history' _ Hrun]; subst.
  - reflexivity.
  - apply (f_equal (fun r => fst (fst r))) in Hrun. discriminate.
Qed.

Lemma two_appended : forall (old pre more : list Message) message c f,
  old ++ HumanMessage message :: more = pre ++ [AIMessage c []; AIMessage f []] ->
  2 <= length more.
Proof.
  intros old pre more message c f H.
  change (pre ++ [AIMessage c []; AIMessage f []])
    with (pre ++ [AIMessage c []] ++ [AIMessage f []]) in H.
  rewrite app_assoc in H.
  destruct more as [|x [|y more]]; simpl; try lia.
  - change (old ++ [HumanMessage message])
      with (old ++ [HumanMessage message]) in H.
    apply app_inj_tail in H. destruct H as [_ H]. discriminate.
  - change (old ++ [HumanMessage message; x])
      with (old ++ [HumanMessage message] ++ [x]) in H.
    rewrite app_assoc in H.
    apply app_inj_tail in H. destruct H as [H _].
    apply app_inj_tail in H. destruct H as [_ H]. discriminate.
Qed.

(** X12. After [n] calls that returned, the transcript has [3 * n] entries:
    for each call a user entry, then the worker's reply and the evaluator's
    feedback as two assistant entries.  The thread holds at least as many
    messages. *)
Theorem transcript_after_shape : forall n memory history,
  transcript_after n memory history ->
  length history = 3 * n /\
  (forall i, i < n ->
     exists message reply f,
       nth_error history (3 * i) = Some (mkTurn (py "user") message) /\
       nth_error history (3 * i + 1) = Some (mkTurn (py "assistant") reply) /\
       nth_error history (3 * i + 2) =
         Some (mkTurn (py "assistant") (py "Evaluator feedback: " ++ f))) /\
  (forall s, memory = Some s -> 3 * n <= length (messages s)).
Proof.
  intros n memory history H.
  induction H as [|n memory history t message criteria memory' t' history'
                    Hprev [IHlen [IHnth IHmsgs]] Hrun].
  - split; [reflexivity|]. split; [intros i Hi; lia | intros s Hs; discriminate].
  - destruct (run_superstep_result memory t message criteria history)
      as [Hck Hres].
    pose proof (ainvoke_ends memory t message criteria) as Hend.
    cbv zeta in Hend.
    destruct (checkpoint_extends_thread memory t message criteria
                (transcript_after_session n memory history Hprev))
      as [more Hmore].
    rewrite Hrun in Hck, Hres. cbn [fst snd] in Hck, Hres.
    destruct (outcome (ainvoke memory t (graph_input message criteria)))
      as [final|e]; [|discriminate].
    destruct Hres as [pre [c [f [Hm Hr]]]]. injection Hr as ->.
    destruct Hend as [Hfinal _]. rewrite <- Hfinal in Hmore.
    split; [rewrite length_app, IHlen; simpl; lia|]. split.
    + intros i Hi. destruct (Nat.eq_dec i n) as [->|Hne].
      * exists message, c, f.
        rewrite !nth_error_app2 by lia.
        replace (3 * n - length history) with 0 by lia.
        replace (3 * n + 1 - length history) with 1 by lia.
        replace (3 * n + 2 - length history) with 2 by lia.
        auto.
      * destruct (IHnth i) as [m' [r' [f' [H1 [H2 H3]]]]]; [lia|].
        exists m', r', f'.
        rewrite !nth_error_app1 by lia. auto.
    + intros s Hs. rewrite Hs in Hck. injection Hck as ->.
      rewrite <- Hfinal. rewrite Hmore, length_app. simpl.
      assert (Hold : 3 * n <= length (messages (from_option memory empty_channels))).
      { destruct memory as [s1|]; [now apply IHmsgs|].
        rewrite (transcript_after_new n history Hprev). simpl. lia. }
      assert (Htwo : 2 <= length more).
      { rewrite Hm in Hmore. symmetry in Hmore.
        eapply two_appended. exact Hmore. }
      lia.
Qed.

(** X13. On a state without messages the router after the worker raises
    [IndexError], and so does the evaluator, before it calls its model. *)
Theorem no_messages_index_error : forall s : State,
  messages s = [] ->
  worker_router s = Err IndexError /\
  forall t, evaluator t s = Err IndexError.
Proof.
  intros s H. unfold worker_router, evaluator. rewrite H. split; reflexivity.
Qed.

End Sidekick.

(** ** A scripted session

    The services are replaced by scripts that answer by the clock, so that the
    program can be run: a search tool call at step 0, a plain reply at every
    other worker step; a rejection at step 3, an acceptance at step 5, a
    completion that is no judgment at any other evaluator step. *)

Fixpoint str_eqb (a b : str) : bool :=
  match a, b with
  | [], [] => true
  | x :: a', y :: b' => N.eqb x y && str_eqb a' b'
  | _, _ => false
  end.

Definition demo_now (t : nat) : str := py "2025-01-01 09:00:00".

Definition demo_call : ToolCall :=
  mkToolCall (py "search") (py "{}") (py "call_1").

Definition demo_worker (t : nat) (msgs : list Message)
    : Result (str * list ToolCall) :=
  match t with
  | 0 => Ok ([], [demo_call])
  | _ => Ok (py "X in short.", [])
  end.

Definition demo_evaluator_llm (t : nat) (msgs : list Message) : Result str :=
  match t with
  | 3 => Ok (py "retry")
  | 5 => Ok (py "met")
  | _ => Ok (py "I think it is fine")
  end.

Definition demo_parse (raw : str) : option EvaluatorOutput :=
  if str_eqb raw (py "met") then
    Some (mkEvaluatorOutput (py "Looks complete") true false)
  else if str_eqb raw (py "retry") then
    Some (mkEvaluatorOutput (py "missing citation") false false)
  else None.

Definition demo_tool (t : nat) (c : ToolCall) : str := py "3 results".

Definition demo_step : Node -> nat -> State -> Result (Node * State) :=
  step demo_now demo_worker demo_evaluator_llm demo_parse demo_tool.

Definition demo_run_superstep :=
  run_superstep demo_now demo_worker demo_evaluator_llm demo_parse demo_tool 25.

Definition demo_criteria : str := py "The answer should be clear and accurate".

Definition demo_start : State :=
  load None (graph_input (py "Summarize X") None).

Definition demo_replied : State :=
  mkState [ HumanMessage (py "Summarize X");
            AIMessage (py "X in short.") [] ]
          demo_criteria None false false.

Definition demo_accepted : State :=
  mkState [ HumanMessage (py "Summarize X");
            AIMessage (py "X in short.") [];
            AIMessage (py "Evaluator feedback: Looks complete") [] ]
          demo_criteria (Some (py "Looks complete")) true false.

(** Scenario A: a fresh session, no criteria, a reply without tool calls, an
    accepting evaluator. *)
Example scenario_A :
  demo_run_superstep None 4 (py "Summarize X") None [] =
  (Some demo_accepted, 6,
   Ok [ mkTurn (py "user") (py "Summarize X");
        mkTurn (py "assistant") (py "X in short.");
        mkTurn (py "assistant") (py "Evaluator feedback: Looks complete") ]).
Proof. vm_compute. reflexivity. Qed.

(** Scenarios B and C: worker, tools, worker, evaluator (rejects), worker,
    evaluator (accepts); the worker that follows the rejection is told why. *)
Example scenario_B_C :
  exists s1 s2 s3 s4 s5 s6,
    demo_step N_worker 0 demo_start = Ok (N_tools, s1) /\
    demo_step N_tools 1 s1 = Ok (N_worker, s2) /\
    demo_step N_worker 2 s2 = Ok (N_evaluator, s3) /\
    demo_step N_evaluator 3 s3 = Ok (N_worker, s4) /\
    feedback_on_work s4 = Some (py "missing citation") /\
    worker_system_message demo_now 4 s4 =
      worker_instructions demo_now 4 demo_criteria
      ++ rejection_clause (py "missing citation") /\
    demo_step N_worker 4 s4 = Ok (N_evaluator, s5) /\
    demo_step N_evaluator 5 s5 = Ok (N_END, s6) /\
    length (messages s6) = 7.
Proof.
  repeat eexists; vm_compute; reflexivity.
Qed.

(** C1, as the specification has it, fails on a fresh session: after the
    first worker execution the stored messages are the user's message and the
    reply, and none of them is a system entry. *)
Lemma worker_stores_no_system_entry :
  demo_step N_worker 4 demo_start = Ok (N_evaluator, demo_replied) /\
  count_system (messages demo_replied) = 0 /\
  count_system (messages demo_replied) <> 1.
Proof.
  split; [vm_compute; reflexivity|]. split; [reflexivity|].
  vm_compute. discriminate.
Qed.

Lemma worker_one_system_entry_witness :
  count_system (messages demo_start) <= 1 /\
  count_system (worker_messages demo_now 4 demo_start) = 1 /\
  count_system (messages demo_replied) = count_system (messages demo_start).
Proof.
  assert (H : count_system (messages demo_start) <= 1)
    by (vm_compute; lia).
  split; [exact H|].
  destruct (worker_one_system_entry demo_now demo_worker demo_evaluator_llm
              demo_parse demo_tool demo_start 4 H)
    as [H1 [_ [H3 _]]].
  split; [exact H1|].
  apply (H3 N_evaluator demo_replied). vm_compute. reflexivity.
Defined.

Definition demo_tool_request : State :=
  mkState [HumanMessage (py "hi"); AIMessage [] [demo_call]]
          demo_criteria None false false.

Lemma worker_router_spec_witness :
  messages demo_tool_request =
    [HumanMessage (py "hi")] ++ [AIMessage [] [demo_call]] /\
  worker_router demo_tool_request = Ok N_tools.
Proof.
  split; [reflexivity|].
  apply (proj1 (worker_router_spec demo_tool_request [HumanMessage (py "hi")]
                  (AIMessage [] [demo_call]) eq_refl)
           [] demo_call [] eq_refl).
Defined.

Lemma messages_append_only_witness :
  evolves demo_now demo_worker demo_evaluator_llm demo_parse demo_tool
          demo_start demo_replied /\
  length (messages demo_start) <= length (messages demo_replied) /\
  nth_error (messages demo_replied) 0 = Some (HumanMessage (py "Summarize X")).
Proof.
  assert (H : evolves demo_now demo_worker demo_evaluator_llm demo_parse
                      demo_tool demo_start demo_replied).
  { apply (ev_step _ _ _ _ _ demo_start N_worker 4 demo_start N_evaluator
                   demo_replied).
    - apply ev_refl.
    - vm_compute. reflexivity. }
  split; [exact H|].
  destruct (messages_append_only _ _ _ _ _ _ _ H) as [HL HK].
  split; [exact HL|].
  apply HK; reflexivity.
Defined.

Lemma run_superstep_transcript_witness :
  outcome (ainvoke demo_now demo_worker demo_evaluator_llm demo_parse demo_tool
                   25 None 4 (graph_input (py "Summarize X") None))
    = Ok demo_accepted /\
  exists pre c f,
    messages demo_accepted =
      pre ++ [AIMessage c []; AIMessage (py "Evaluator feedback: " ++ f) []] /\
    snd (demo_run_superstep None 4 (py "Summarize X") None []) =
      Ok ([] ++ [ mkTurn (py "user") (py "Summarize X");
                  mkTurn (py "assistant") c;
                  mkTurn (py "assistant") (py "Evaluator feedback: " ++ f) ]).
Proof.
  assert (H : outcome (ainvoke demo_now demo_worker demo_evaluator_llm
                               demo_parse demo_tool 25 None 4
                               (graph_input (py "Summarize X") None))
              = Ok demo_accepted) by (vm_compute; reflexivity).
  split; [exact H|].
  destruct (run_superstep_transcript demo_now demo_worker demo_evaluator_llm
              demo_parse demo_tool 25 None 4 (py "Summarize X") None []
              demo_accepted H)
    as [pre [c [f [Hm [_ [_ [_ [_ Hr]]]]]]]].
  exists pre, c, f. split; [exact Hm | exact Hr].
Defined.

Definition demo_judgment : EvaluatorOutput :=
  mkEvaluatorOutput (py "Looks complete") true false.

Lemma evaluator_spec_witness :
  messages demo_replied =
    [HumanMessage (py "Summarize X")] ++ [AIMessage (py "X in short.") []] /\
  evaluator_llm_with_output demo_evaluator_llm demo_parse 5
    [ SystemMessage evaluator_system_message;
      HumanMessage (evaluator_user_message demo_replied (py "X in short.")) ]
    = Ok demo_judgment /\
  exists u,
    evaluator demo_evaluator_llm demo_parse 5 demo_replied = Ok u /\
    apply_update demo_replied u = demo_accepted.
Proof.
  split; [reflexivity|]. split; [reflexivity|].
  destruct (evaluator_spec demo_evaluator_llm demo_parse 5 demo_replied
              [HumanMessage (py "Summarize X")]
              (AIMessage (py "X in short.") []) demo_judgment
              eq_refl eq_refl)
    as [u [Hu [_ Ha]]].
  exists u. split; [exact Hu|]. rewrite Ha. reflexivity.
Defined.

Definition demo_reply_update : Update :=
  mkUpdate (Some [AIMessage (py "X in short.") []]) None None None None.

Lemma worker_updates_messages_only_witness :
  worker demo_now demo_worker 4 demo_start = Ok demo_reply_update /\
  apply_update (set_messages demo_start (worker_stored demo_now 4 demo_start))
               demo_reply_update
    = demo_replied /\
  success_criteria demo_replied = success_criteria demo_start /\
  feedback_on_work demo_replied = feedback_on_work demo_start.
Proof.
  assert (H : worker demo_now demo_worker 4 demo_start = Ok demo_reply_update)
    by reflexivity.
  split; [exact H|]. split; [reflexivity|].
  destruct (worker_updates_messages_only demo_now demo_worker 4 demo_start
              demo_reply_update H)
    as [_ [H1 [H2 _]]].
  split; [exact H1 | exact H2].
Defined.

(** Scenario D: the completion at step 11 is no judgment. *)
Lemma unparsable_judgment_is_fatal_witness :
  run_to demo_now demo_worker demo_evaluator_llm demo_parse demo_tool
         N_worker 10 demo_start 1 N_evaluator 11 demo_replied /\
  1 < 25 /\
  index_neg (messages demo_replied) 1 = Ok (AIMessage (py "X in short.") []) /\
  demo_evaluator_llm 11
    [ SystemMessage evaluator_system_message;
      HumanMessage (evaluator_user_message demo_replied (py "X in short.")) ]
    = Ok (py "I think it is fine") /\
  demo_parse (py "I think it is fine") = None /\
  demo_run_superstep None 10 (py "Summarize X") None [] =
    (Some demo_replied, 12, Err StructuredOutputError) /\
  success_criteria_met demo_replied = false.
Proof.
  assert (Hrun : run_to demo_now demo_worker demo_evaluator_llm demo_parse
                        demo_tool N_worker 10 demo_start 1 N_evaluator 11
                        demo_replied).
  { apply (rt_step _ _ _ _ _ N_worker 10 demo_start 0 N_worker 10 demo_start
                   N_evaluator demo_replied).
    - apply rt_start.
    - discriminate.
    - vm_compute. reflexivity. }
  assert (Hk : 1 < 25) by lia.
  split; [exact Hrun|]. split; [exact Hk|].
  split; [reflexivity|]. split; [reflexivity|]. split; [reflexivity|].
  destruct (unparsable_judgment_is_fatal demo_now demo_worker
              demo_evaluator_llm demo_parse demo_tool 25 None 10
              (py "Summarize X") None [] 1 11 demo_replied
              (AIMessage (py "X in short.") []) (py "I think it is fine")
              Hrun Hk eq_refl eq_refl eq_refl)
    as [_ [Hr [Hm _]]].
  split; [exact Hr | exact Hm].
Defined.

(** ** The further properties on the scripted session *)

Definition demo_rejected : State :=
  mkState [ HumanMessage (py "Summarize X");
            AIMessage (py "X in short.") [];
            AIMessage (py "Evaluator feedback: missing citation") [] ]
          demo_criteria (Some (py "missing citation")) false false.

Lemma worker_instructions_trailing_space_witness :
  forallb isspace (py "  ") = true /\
  worker_instructions demo_now 0 (py "Be brief" ++ py "  ")
    = worker_instructions demo_now 0 (py "Be brief").
Proof.
  assert (H : forallb isspace (py "  ") = true) by reflexivity.
  split; [exact H|].
  exact (proj1 (worker_instructions_trailing_space demo_now 0
                  (py "Be brief") (py "  ") H)).
Defined.

Lemma evaluator_feedback_in_transcript_witness :
  demo_step N_evaluator 5 demo_replied = Ok (N_END, demo_accepted) /\
  exists f,
    feedback_on_work demo_accepted = Some f /\
    format_conversation (messages demo_accepted) =
      strip (flat_map transcript_line (filter is_turn (messages demo_replied))
             ++ py "Assistant: Evaluator feedback: " ++ f ++ nl).
Proof.
  assert (H : demo_step N_evaluator 5 demo_replied = Ok (N_END, demo_accepted))
    by (vm_compute; reflexivity).
  split; [exact H|].
  exact (evaluator_feedback_in_transcript demo_now demo_worker
           demo_evaluator_llm demo_parse demo_tool 5 demo_replied N_END
           demo_accepted H).
Defined.

Lemma rejection_reaches_worker_witness :
  demo_step N_evaluator 3 demo_replied = Ok (N_worker, demo_rejected) /\
  worker_system_message demo_now 4 demo_rejected =
    worker_instructions demo_now 4 demo_criteria
    ++ rejection_clause (py "missing citation").
Proof.
  assert (H : demo_step N_evaluator 3 demo_replied = Ok (N_worker, demo_rejected))
    by (vm_compute; reflexivity).
  split; [exact H|].
  destruct (rejection_reaches_worker demo_now demo_worker demo_evaluator_llm
              demo_parse demo_tool 3 demo_replied demo_rejected H)
    as [f [Hf [_ [_ [_ Hw]]]]].
  injection Hf as <-. exact (proj1 (Hw 4)).
Defined.


Lemma demo_session_memory :
  session_memory demo_now demo_worker demo_evaluator_llm demo_parse demo_tool
    25 (fst (fst (demo_run_superstep None 4 (py "Summarize X") None []))).
Proof.
  apply sm_call. apply sm_new.
Defined.

Lemma session_memory_no_system_witness :
  session_memory demo_now demo_worker demo_evaluator_llm demo_parse demo_tool
    25 (fst (fst (demo_run_superstep None 4 (py "Summarize X") None []))) /\
  fst (fst (demo_run_superstep None 4 (py "Summarize X") None []))
    = Some demo_accepted /\
  count_system (messages demo_accepted) = 0.
Proof.
  assert (H : fst (fst (demo_run_superstep None 4 (py "Summarize X") None []))
              = Some demo_accepted) by (vm_compute; reflexivity).
  split; [exact demo_session_memory|]. split; [exact H|].
  exact (proj1 (session_memory_no_system demo_now demo_worker
                  demo_evaluator_llm demo_parse demo_tool 25 _ demo_accepted
                  demo_session_memory H)).
Defined.

Lemma thread_accumulates_witness :
  session_memory demo_now demo_worker demo_evaluator_llm demo_parse demo_tool
    25 None /\
  exists ck more,
    fst (fst (demo_run_superstep None 10 (py "Summarize X") None []))
      = Some ck /\
    messages ck = [] ++ HumanMessage (py "Summarize X") :: more.
Proof.
  assert (H : session_memory demo_now demo_worker demo_evaluator_llm
                demo_parse demo_tool 25 None) by apply sm_new.
  split; [exact H|].
  exact (thread_accumulates demo_now demo_worker demo_evaluator_llm
           demo_parse demo_tool 25 None 10 (py "Summarize X") None [] H).
Defined.

Lemma transcript_after_shape_witness :
  transcript_after demo_now demo_worker demo_evaluator_llm demo_parse
    demo_tool 25 1 (Some demo_accepted)
    [ mkTurn (py "user") (py "Summarize X");
      mkTurn (py "assistant") (py "X in short.");
      mkTurn (py "assistant") (py "Evaluator feedback: Looks complete") ] /\
  3 * 1 <= length (messages demo_accepted).
Proof.
  assert (H : transcript_after demo_now demo_worker demo_evaluator_llm
                demo_parse demo_tool 25 1 (Some demo_accepted)
                [ mkTurn (py "user") (py "Summarize X");
                  mkTurn (py "assistant") (py "X in short.");
                  mkTurn (py "assistant")
                         (py "Evaluator feedback: Looks complete") ]).
  { apply (ta_call demo_now demo_worker demo_evaluator_llm demo_parse
             demo_tool 25 0 None [] 4 (py "Summarize X") None
             (Some demo_accepted) 6).
    - apply ta_new.
    - vm_compute. reflexivity. }
  split; [exact H|].
  destruct (transcript_after_shape demo_now demo_worker demo_evaluator_llm
              demo_parse demo_tool 25 1 (Some demo_accepted) _ H)
    as [_ [_ Hm]].
  exact (Hm demo_accepted eq_refl).
Defined.

Lemma no_messages_index_error_witness :
  messages empty_channels = [] /\
  worker_router empty_channels = Err IndexError /\
  evaluator demo_evaluator_llm demo_parse 0 empty_channels = Err IndexError.
Proof.
  split; [reflexivity|].
  destruct (no_messages_index_error demo_evaluator_llm demo_parse
              empty_channels eq_refl) as [H1 H2].
  split; [exact H1 | exact (H2 0)].
Defined.
